(** * Screen Time Management: the usage store of [database.py]

    A shallow embedding of the data-access layer of the repository
    ([src/database.py]) and of its callers ([src/add_entry.py],
    [src/sample_data.py], [src/analyze.py], the form of [src/app.py]),
    together with the properties its specification states about them.

    The store is one MySQL table, [usage_log].  Every function of
    [database.py] opens a connection, sends SQL text through it, and closes
    it.  The embedding therefore has three layers:

    - the server and the one open connection, as an explicit state
      ([World]) threaded through a small state-and-exception monad ([Op]);
    - the meaning of the SQL statements the source sends, as list functions
      over the rows of the table ([order_by], [group_by], [sql_SUM], ...);
    - the Python functions themselves, written in the monad, statement by
      statement.

    Modelling conventions.
    - [hours_spent] is a [FLOAT] column: single precision in the table,
      added up in double precision by the server, read back as a Python
      [float].  It is modelled by exact rationals ([Q]), compared with
      [==].  The two agree on the values that single precision holds
      exactly and that come back digit for digit ([float_exact]), in tables
      small enough for every sum to stay exact ([exact_table]); the
      properties that compare sums carry these as hypotheses, and
      [Binary64] computes in double precision where they fail.
    - [entry_date] is a [datetime.date], a (year, month, day) triple ordered
      lexicographically.
    - The column [created_at] is never selected by any statement of the
      source and is left out of [Row].
    - [category] has the default collation of the server, which does not
      tell upper case from lower case: [GROUP BY category] groups by
      [collation_key].  Python compares text exactly.
    - An [INSERT] of the model stores what it is given.  What the columns
      of [usage_log] take without an error or a change is [accepts]. *)

From Stdlib Require Import ZArith QArith Qround Bool List String Ascii Lia.
From Stdlib Require Import DecimalString Lqa Floats Uint63.
From Stdlib Require Import Permutation Sorted Morphisms Setoid.
Import ListNotations.

Local Open Scope Z_scope.
Local Open Scope list_scope.

(* ================================================================== *)
(** * Dates *)

Module Date.

Record date : Type := mkdate { year : Z; month : Z; day : Z }.

(** [datetime.date] compares as the triple (year, month, day). *)
Definition compare (a b : date) : comparison :=
  match year a ?= year b with
  | Eq => match month a ?= month b with
          | Eq => day a ?= day b
          | c => c
          end
  | c => c
  end.

Definition eqb (a b : date) : bool :=
  match compare a b with Eq => true | _ => false end.

Definition leb (a b : date) : bool :=
  match compare a b with Gt => false | _ => true end.

Definition ltb (a b : date) : bool :=
  match compare a b with Lt => true | _ => false end.

Definition lt (a b : date) : Prop := ltb a b = true.
Definition le (a b : date) : Prop := leb a b = true.

End Date.

Definition date : Type := Date.date.

(* ================================================================== *)
(** * The table and the server *)

(** One row of [usage_log], with the five columns the source selects. *)
Record Row : Type := mkRow {
  entry_id    : Z;        (* INT AUTO_INCREMENT PRIMARY KEY *)
  entry_date  : date;     (* DATE NOT NULL *)
  category    : string;   (* VARCHAR(50) NOT NULL *)
  hours_spent : Q;        (* FLOAT NOT NULL *)
  remarks     : string    (* TEXT *)
}.

(** The MySQL server as the source sees it.  [usage_log] holds the committed
    rows in storage order; [auto_increment] is the table's counter;
    [session] is the working copy of the one open connection ([None] when
    no connection is open).  Connector/Python does not autocommit: a
    statement changes the working copy, [commit] makes it durable, and
    [close] drops what was not committed. *)
Record World : Type := mkWorld {
  reachable      : bool;
  usage_log      : list Row;
  auto_increment : Z;
  session        : option (list Row)
}.

Definition set_session (s : option (list Row)) (w : World) : World :=
  mkWorld (reachable w) (usage_log w) (auto_increment w) s.

Definition set_usage_log (t : list Row) (w : World) : World :=
  mkWorld (reachable w) t (auto_increment w) (session w).

Definition set_auto_increment (n : Z) (w : World) : World :=
  mkWorld (reachable w) (usage_log w) n (session w).

(** The state right after [initialize_database] on a fresh server. *)
Definition empty_world : World := mkWorld true [] 1 None.

(* ================================================================== *)
(** * The monad of database operations *)

(** How a Python call ends: it returns, or raises [mysql.connector.Error],
    or raises a plain [Exception].  The two are kept apart because the
    source catches only the first ([except Error as e]). *)
Inductive outcome (A : Type) : Type :=
| Return (a : A)
| RaiseError (msg : string)
| RaiseException (msg : string).

Arguments Return {A} a.
Arguments RaiseError {A} msg.
Arguments RaiseException {A} msg.

Definition Op (A : Type) : Type := World -> outcome A * World.

Definition ret {A} (a : A) : Op A := fun w => (Return a, w).

Definition bind {A B} (c : Op A) (k : A -> Op B) : Op B :=
  fun w =>
    match c w with
    | (Return a, w') => k a w'
    | (RaiseError e, w') => (RaiseError e, w')
    | (RaiseException e, w') => (RaiseException e, w')
    end.

Definition raise_Exception {A} (msg : string) : Op A :=
  fun w => (RaiseException msg, w).

(** [try: body  except Error as e: handler e] *)
Definition try_except_Error {A} (body : Op A) (handler : string -> Op A)
  : Op A :=
  fun w =>
    match body w with
    | (RaiseError e, w') => handler e w'
    | r => r
    end.

Declare Scope op_scope.
Delimit Scope op_scope with op.
Notation "x <- c1 ;; c2" := (bind c1 (fun x => c2))
  (at level 61, c1 at next level, right associativity) : op_scope.
Notation "c1 ;; c2" := (bind c1 (fun _ => c2))
  (at level 61, right associativity) : op_scope.

(* ================================================================== *)
(** * The connector: connections, cursors, statements *)

(** A statement sent through a connection that is not open fails. *)
Definition with_session {A} (k : list Row -> Op A) : Op A :=
  fun w =>
    match session w with
    | Some t => k t w
    | None => (RaiseError "MySQL Connection not available."%string, w)
    end.

(** [mysql.connector.connect] with the credentials of [DB_CONFIG] *)
Definition mysql_connector_connect : Op unit :=
  fun w =>
    if reachable w
    then (Return tt, set_session (Some (usage_log w)) w)
    else (RaiseError "Can't connect to MySQL server"%string, w).

(** [conn.cursor()] and [cursor.close()] *)
Definition conn_cursor : Op unit := with_session (fun _ => ret tt).
Definition cursor_close : Op unit := ret tt.

(** [conn.commit()] *)
Definition conn_commit : Op unit :=
  with_session (fun t w => (Return tt, set_usage_log t w)).

(** [conn.close()] *)
Definition conn_close : Op unit :=
  fun w => (Return tt, set_session None w).

(** [INSERT INTO usage_log (entry_date, category, hours_spent, remarks)
     VALUES (%s, %s, %s, %s)]: the row takes the counter's value as its
    [entry_id], and the counter moves on. *)
Definition execute_insert (d : date) (c : string) (h : Q) (r : string)
  : Op unit :=
  with_session (fun t w =>
    (Return tt,
     set_session (Some (t ++ [mkRow (auto_increment w) d c h r]))
       (set_auto_increment (auto_increment w + 1) w))).

(** [DELETE FROM usage_log WHERE entry_id = %s]; the result is the cursor's
    [rowcount]. *)
Definition execute_delete (id : Z) : Op Z :=
  with_session (fun t w =>
    (Return (Z.of_nat (List.length (filter (fun r => entry_id r =? id) t))),
     set_session (Some (filter (fun r => negb (entry_id r =? id)) t)) w)).

(** [pd.read_sql(query, conn)] and [cursor.execute(query); cursor.fetchone()]:
    a [SELECT], given by its meaning [q] on the rows the connection sees. *)
Definition read_sql {A} (q : list Row -> A) : Op A :=
  with_session (fun t => ret (q t)).

Definition execute_fetchone {A} (q : list Row -> A) : Op A :=
  with_session (fun t => ret (q t)).

(* ================================================================== *)
(** * The meaning of the SQL the source sends *)

Section OrderBy.
Context {A : Type} (leb : A -> A -> bool).

Fixpoint insert_sorted (x : A) (l : list A) : list A :=
  match l with
  | [] => [x]
  | y :: l' => if leb x y then x :: y :: l' else y :: insert_sorted x l'
  end.

(** [ORDER BY]: a stable sort by the given comparison. *)
Definition order_by (l : list A) : list A :=
  fold_right insert_sorted [] l.

(** The order the comparison stands for. *)
Definition leR (x y : A) : Prop := leb x y = true.
End OrderBy.

Section GroupBy.
Context {K : Type} (eqb : K -> K -> bool) (key : Row -> K).

Fixpoint add_to_group (r : Row) (gs : list (K * list Row))
  : list (K * list Row) :=
  match gs with
  | [] => [(key r, [r])]
  | (k, g) :: gs' =>
      if eqb (key r) k then (k, g ++ [r]) :: gs'
      else (k, g) :: add_to_group r gs'
  end.

(** [GROUP BY key]: one scan of the table; each row joins the group of its
    key, a new key opens a new group. *)
Definition group_by (rows : list Row) : list (K * list Row) :=
  fold_left (fun gs r => add_to_group r gs) rows [].

(** The rows of the table that carry the key [k], in storage order. *)
Definition members (k : K) (rows : list Row) : list Row :=
  filter (fun r => eqb (key r) k) rows.

(** The group filed under [k], empty when there is none. *)
Fixpoint find_group (k : K) (gs : list (K * list Row)) : list Row :=
  match gs with
  | [] => []
  | (k', g) :: gs' => if eqb k k' then g else find_group k gs'
  end.

(** No group is empty. *)
Definition inhabited (gs : list (K * list Row)) : Prop :=
  Forall (fun kg => snd kg <> []) gs.

End GroupBy.

Fixpoint Qsum (l : list Q) : Q :=
  match l with
  | [] => 0%Q
  | x :: l' => (x + Qsum l')%Q
  end.

Definition sum_hours (rows : list Row) : Q := Qsum (map hours_spent rows).

(** [SUM(x)] and [AVG(x)] are [NULL] over no rows. *)
Definition sql_SUM (l : list Q) : option Q :=
  match l with
  | [] => None
  | _ => Some (Qsum l)
  end.

Definition sql_AVG (l : list Q) : option Q :=
  match l with
  | [] => None
  | _ => Some (Qsum l / inject_Z (Z.of_nat (List.length l)))%Q
  end.

Definition sql_COUNT {A} (l : list A) : Z := Z.of_nat (List.length l).

Definition sql_MIN (l : list date) : option date :=
  match l with
  | [] => None
  | d :: l' => Some (fold_left (fun m x => if Date.ltb x m then x else m) l' d)
  end.

Definition sql_MAX (l : list date) : option date :=
  match l with
  | [] => None
  | d :: l' => Some (fold_left (fun m x => if Date.ltb m x then x else m) l' d)
  end.

(** [ORDER BY entry_date DESC, entry_id DESC] *)
Definition by_date_desc_id_desc (a b : Row) : bool :=
  Date.ltb (entry_date b) (entry_date a)
  || (Date.eqb (entry_date a) (entry_date b) && (entry_id b <=? entry_id a)).

(** [ORDER BY entry_date DESC] *)
Definition by_date_desc (a b : Row) : bool :=
  Date.leb (entry_date b) (entry_date a).

(** [entry_date BETWEEN %s AND %s] *)
Definition between (start_date end_date : date) (r : Row) : bool :=
  Date.leb start_date (entry_date r) && Date.leb (entry_date r) end_date.

(** [SELECT entry_id, entry_date, category, hours_spent, remarks
     FROM usage_log ORDER BY entry_date DESC, entry_id DESC] *)
Definition q_all_entries (t : list Row) : list Row :=
  order_by by_date_desc_id_desc t.

(** [SELECT ... FROM usage_log WHERE entry_date BETWEEN %s AND %s
     ORDER BY entry_date DESC] *)
Definition q_date_range (start_date end_date : date) (t : list Row)
  : list Row :=
  order_by by_date_desc (filter (between start_date end_date) t).

(** [SUM(hours_spent) ... GROUP BY key]: a group is never empty, so its sum
    is never [NULL]. *)
Definition sum_per_group {K} (gs : list (K * list Row)) : list (K * Q) :=
  map (fun kg => (fst kg, sum_hours (snd kg))) gs.

(** [SELECT key, SUM(hours_spent) as total_hours FROM usage_log
     GROUP BY key ORDER BY ...] *)
Definition totals {K} (eqb : K -> K -> bool) (key : Row -> K)
    (leb : K * Q -> K * Q -> bool) (t : list Row) : list (K * Q) :=
  order_by leb (sum_per_group (group_by eqb key t)).

(** [SELECT entry_date, SUM(hours_spent) as total_hours FROM usage_log
     GROUP BY entry_date ORDER BY entry_date] *)
Definition q_daily_totals (t : list Row) : list (date * Q) :=
  totals Date.eqb entry_date (fun a b => Date.leb (fst a) (fst b)) t.

(** The column [category] is declared without a [COLLATE] clause and so
    takes the server's default collation, which does not tell upper case
    from lower case.  [collation_key] is what that collation compares on
    text made of ASCII letters, digits and spaces. *)
Definition fold_char (c : ascii) : ascii :=
  let n := nat_of_ascii c in
  if ((65 <=? n) && (n <=? 90))%nat then ascii_of_nat (n + 32) else c.

Fixpoint collation_key (s : string) : string :=
  match s with
  | EmptyString => EmptyString
  | String c s' => String (fold_char c) (collation_key s')
  end.

(** The category a group is listed under: that of its first row. *)
Definition first_category (g : list Row) : string :=
  match g with
  | [] => EmptyString
  | r :: _ => category r
  end.

(** [SELECT category, SUM(hours_spent) as total_hours FROM usage_log
     GROUP BY category ORDER BY total_hours DESC] *)
Definition q_category_totals (t : list Row) : list (string * Q) :=
  order_by (fun a b => Qle_bool (snd b) (snd a))
    (map (fun kg => (first_category (snd kg), sum_hours (snd kg)))
       (group_by String.eqb (fun r => collation_key (category r)) t)).

(** [SELECT SUM(hours_spent) as total FROM usage_log] *)
Definition q_total (t : list Row) : option Q :=
  sql_SUM (map hours_spent t).

(** [SELECT COUNT( * ) as count FROM usage_log] *)
Definition q_count (t : list Row) : Z := sql_COUNT t.

(** [SELECT AVG(daily_total) as avg_daily FROM
     (SELECT SUM(hours_spent) as daily_total FROM usage_log
      GROUP BY entry_date) as daily_totals] *)
Definition q_avg_daily (t : list Row) : option Q :=
  sql_AVG (map snd (sum_per_group (group_by Date.eqb entry_date t))).

(** [SELECT MIN(entry_date) as first_date, MAX(entry_date) as last_date
     FROM usage_log] *)
Definition q_date_span (t : list Row) : option date * option date :=
  (sql_MIN (map entry_date t), sql_MAX (map entry_date t)).

(* ================================================================== *)
(** * [database.py] *)

Local Open Scope op_scope.

(** Python's [x or 0] on a number that may be [None]. *)
Definition or_0 (x : option Q) : Q :=
  match x with
  | None => 0%Q
  | Some q => if Qeq_bool q 0 then 0%Q else q
  end.

Definition or_0Z (x : Z) : Z := if x =? 0 then 0 else x.

Definition get_connection : Op unit :=
  try_except_Error
    mysql_connector_connect
    (fun e => raise_Exception ("Database connection error: " ++ e)%string).

Definition add_entry (entry_date : date) (category : string)
    (hours_spent : Q) (remarks : string) : Op (bool * string) :=
  try_except_Error
    (get_connection ;;
     conn_cursor ;;
     execute_insert entry_date category hours_spent remarks ;;
     conn_commit ;;
     cursor_close ;;
     conn_close ;;
     ret (true, "Entry added successfully!"%string))
    (fun e => ret (false, ("Error adding entry: " ++ e)%string)).

Definition get_all_entries : Op (list Row) :=
  try_except_Error
    (get_connection ;;
     df <- read_sql q_all_entries ;;
     conn_close ;;
     ret df)
    (fun e => raise_Exception ("Error fetching entries: " ++ e)%string).

Definition get_date_range_entries (start_date end_date : date)
  : Op (list Row) :=
  try_except_Error
    (get_connection ;;
     df <- read_sql (q_date_range start_date end_date) ;;
     conn_close ;;
     ret df)
    (fun e => raise_Exception ("Error fetching entries: " ++ e)%string).

Definition get_daily_totals : Op (list (date * Q)) :=
  try_except_Error
    (get_connection ;;
     df <- read_sql q_daily_totals ;;
     conn_close ;;
     ret df)
    (fun e => raise_Exception ("Error fetching daily totals: " ++ e)%string).

Definition get_category_totals : Op (list (string * Q)) :=
  try_except_Error
    (get_connection ;;
     df <- read_sql q_category_totals ;;
     conn_close ;;
     ret df)
    (fun e =>
       raise_Exception ("Error fetching category totals: " ++ e)%string).

(** The dictionary [get_statistics] returns. *)
Record Statistics : Type := mkStatistics {
  total_hours     : Q;
  total_entries   : Z;
  avg_daily_hours : Q;
  first_date      : option date;
  last_date       : option date
}.

Definition get_statistics : Op Statistics :=
  try_except_Error
    (get_connection ;;
     conn_cursor ;;
     total <- execute_fetchone q_total ;;
     count <- execute_fetchone q_count ;;
     avg_daily <- execute_fetchone q_avg_daily ;;
     date_range <- execute_fetchone q_date_span ;;
     cursor_close ;;
     conn_close ;;
     ret (mkStatistics (or_0 total) (or_0Z count) (or_0 avg_daily)
            (fst date_range) (snd date_range)))
    (fun e => raise_Exception ("Error fetching statistics: " ++ e)%string).

Definition delete_entry (entry_id : Z) : Op (bool * string) :=
  try_except_Error
    (get_connection ;;
     conn_cursor ;;
     affected <- execute_delete entry_id ;;
     conn_commit ;;
     cursor_close ;;
     conn_close ;;
     if 0 <? affected
     then ret (true, "Entry deleted successfully!"%string)
     else ret (false, "Entry not found."%string))
    (fun e => ret (false, ("Error deleting entry: " ++ e)%string)).


(* ================================================================== *)
(** * [add_entry.py]: the insertion of the command-line script *)

(** [try: body  finally: cleanup], as the exit of a [with] block. *)
Definition finally {A} (body : Op A) (cleanup : Op unit) : Op A :=
  fun w =>
    match body w with
    | (r, w') => (r, snd (cleanup w'))
    end.

(** [with connect(...) as conn: body] *)
Definition with_connect {A} (body : Op A) : Op A :=
  mysql_connector_connect ;; finally body conn_close.

(** [insert_entry] returns nothing; the result here is the line it prints. *)
Definition insert_entry (entry : date * string * Q * string) : Op string :=
  let '(d, c, h, r) := entry in
  try_except_Error
    (with_connect
       (conn_cursor ;;
        execute_insert d c h r ;;
        cursor_close ;;
        conn_commit) ;;
     ret "Record inserted successfully."%string)
    (fun e => ret ("Database error: " ++ e)%string).

(* ================================================================== *)
(** * Vocabulary of the specification *)

(** The arithmetic mean of the terms of a list; of no terms, zero. *)
Definition mean (l : list Q) : Q :=
  match l with
  | [] => 0%Q
  | _ => (Qsum l / inject_Z (Z.of_nat (List.length l)))%Q
  end.

(** Every stored [entry_id] was handed out by the counter already. *)
Definition ids_below_counter (w : World) : bool :=
  forallb (fun r => entry_id r <? auto_increment w) (usage_log w).



Definition date_eq_dec (a b : date) : {a = b} + {a <> b}.
Proof.
  unfold date. decide equality; apply Z.eq_dec.
Defined.


(** The example store of the specification, built by three calls of
    [add_entry] on the empty table. *)
Definition nov (d : Z) : date := Date.mkdate 2025 11 d.

Definition example_world : World :=
  snd (add_entry (nov 2) "Gaming" 4 "Weekend gaming session"
    (snd (add_entry (nov 1) "Social Media" 2 "Instagram and Twitter"
      (snd (add_entry (nov 1) "Study" (7 # 2) "Online classes"
        empty_world))))).

(* ================================================================== *)
(** * What the columns of [usage_log] hold *)

(** [hours_spent FLOAT NOT NULL].  A multiple of 1/8 of magnitude at most
    512 is a single-precision number, so the column keeps it as it is; it
    has at most six significant digits, so a [SELECT] hands it back digit
    for digit; and fewer than 2^31 such values add up without rounding in
    double precision, whatever the order. *)
Definition float_exact (h : Q) : bool :=
  ((Qnum h * 8) mod Z.pos (Qden h) =? 0)
  && Qle_bool (-512) h && Qle_bool h 512.

Definition exact_table (w : World) : bool :=
  forallb (fun r => float_exact (hours_spent r)) (usage_log w)
  && (Z.of_nat (List.length (usage_log w)) <? 2 ^ 31 - 1).

(** Text that every character set of the server stores unchanged, one byte
    a character: the printable ASCII characters. *)
Definition printable_char (c : ascii) : bool :=
  ((32 <=? nat_of_ascii c) && (nat_of_ascii c <=? 126))%nat.

Fixpoint printable (s : string) : bool :=
  match s with
  | EmptyString => true
  | String c s' => printable_char c && printable s'
  end.

(** [entry_date DATE NOT NULL]: a day of the calendar between the years
    1000 and 9999. *)
Definition leap_year (y : Z) : bool :=
  ((y mod 4 =? 0) && negb (y mod 100 =? 0)) || (y mod 400 =? 0).

Definition days_in_month (y m : Z) : Z :=
  if m =? 2 then (if leap_year y then 29 else 28)
  else if (m =? 4) || (m =? 6) || (m =? 9) || (m =? 11) then 30
  else 31.

Definition mysql_date (d : date) : bool :=
  (1000 <=? Date.year d) && (Date.year d <=? 9999)
  && (1 <=? Date.month d) && (Date.month d <=? 12)
  && (1 <=? Date.day d)
  && (Date.day d <=? days_in_month (Date.year d) (Date.month d)).

(** The values that [INSERT INTO usage_log (entry_date, category,
    hours_spent, remarks)] stores as they are: [category VARCHAR(50)] and
    [remarks TEXT] by their width. *)
Definition storable (d : date) (c : string) (h : Q) (r : string) : bool :=
  mysql_date d
  && printable c && (String.length c <=? 50)%nat
  && printable r && (Z.of_nat (String.length r) <=? 65535)
  && float_exact h.

(** ... into a table whose [id INT AUTO_INCREMENT] has a value left. *)
Definition accepts (w : World) (d : date) (c : string) (h : Q) (r : string)
  : bool :=
  storable d c h r
  && (1 <=? auto_increment w) && (auto_increment w <=? 2147483647).

(** A list of entries that one [executemany] stores as they are. *)
Definition accepts_all (w : World)
    (entries : list (date * string * Q * string)) : bool :=
  forallb (fun e => let '(d, c, h, r) := e in storable d c h r) entries
  && (1 <=? auto_increment w)
  && (auto_increment w + Z.of_nat (List.length entries) <=? 2147483648).

(** Outside of that: [cursor.execute] of the [INSERT] in the strict SQL
    mode that is the server's default, as far as the width of
    [category VARCHAR(50)] goes.  A longer category is refused with error
    1406 and no row is stored. *)
Definition execute_insert_strict (d : date) (c : string) (h : Q)
    (r : string) : Op unit :=
  if (String.length c <=? 50)%nat then execute_insert d c h r
  else fun w =>
         (RaiseError
            "1406 (22001): Data too long for column 'category' at row 1",
          w).

(** [add_entry] over it. *)
Definition add_entry_strict (entry_date : date) (category : string)
    (hours_spent : Q) (remarks : string) : Op (bool * string) :=
  try_except_Error
    (get_connection ;;
     conn_cursor ;;
     execute_insert_strict entry_date category hours_spent remarks ;;
     conn_commit ;;
     cursor_close ;;
     conn_close ;;
     ret (true, "Entry added successfully!"%string))
    (fun e => ret (false, ("Error adding entry: " ++ e)%string)).

(** ** Categories under the collation *)

(** A category written with letters, digits and single inner blanks only. *)
Definition is_alnum (c : ascii) : bool :=
  let n := nat_of_ascii c in
  (((48 <=? n) && (n <=? 57)) || ((65 <=? n) && (n <=? 90))
   || ((97 <=? n) && (n <=? 122)))%nat.

Fixpoint is_label_from (prev_blank : bool) (s : string) : bool :=
  match s with
  | EmptyString => negb prev_blank
  | String c s' =>
      if is_alnum c then is_label_from false s'
      else if (nat_of_ascii c =? 32)%nat
           then negb prev_blank && is_label_from true s'
           else false
  end.

Definition is_label (s : string) : bool :=
  match s with
  | EmptyString => true
  | _ => is_label_from true s
  end.

Definition labels_plain (w : World) : bool :=
  forallb (fun r => is_label (category r)) (usage_log w).

(** No two stored categories differ in case alone. *)
Definition case_consistent (t : list Row) : Prop :=
  forall r1 r2, In r1 t -> In r2 t ->
    collation_key (category r1) = collation_key (category r2) ->
    category r1 = category r2.

(** The rows of a category, and of its class under the collation. *)
Definition of_category (c : string) (t : list Row) : list Row :=
  filter (fun r => String.eqb (category r) c) t.

Definition of_class (c : string) (t : list Row) : list Row :=
  filter (fun r => String.eqb (collation_key (category r))
                     (collation_key c)) t.

(** The total listed for a category or for one that differs from it in
    case alone; zero when none is. *)
Fixpoint lookup_class (c : string) (l : list (string * Q)) : Q :=
  match l with
  | [] => 0%Q
  | (c', v) :: l' =>
      if String.eqb (collation_key c') (collation_key c) then v
      else lookup_class c l'
  end.

(* ================================================================== *)
(** * Double precision *)

(** The sums of [get_daily_totals] and [get_statistics] as the server and
    Python compute them, on the hours alone: [SUM] adds the stored values
    in row order, in double precision. *)
Module Binary64.








(** What a [FLOAT] column keeps of a double: the nearest single-precision
    number. *)
Definition to_single (x : float) : float :=
  match Prim2SF x with
  | S754_finite s m e => SF2Prim (SpecFloat.binary_round 24 128 s m e)
  | _ => x
  end.

(** The number a finite double stands for. *)
Definition value (x : float) : Q :=
  match Prim2SF x with
  | S754_finite s m e =>
      let v := if 0 <=? e then inject_Z (Z.pos m * 2 ^ e)
               else Z.pos m # Z.to_pos (2 ^ (- e)) in
      if s then (- v)%Q else v
  | _ => 0%Q
  end.

(** What a [SELECT] hands back of a [FLOAT] column: its value in six
    significant digits, which the connector reads as a Python [float].
    For values from 1 to 99999; [k] is the number of digits after the
    point. *)
Fixpoint digits_after_point (fuel : nat) (q : Q) (k : Z) : Z :=
  match fuel with
  | O => k
  | S fuel' =>
      if Qle_bool 100000 (q * inject_Z (10 ^ k)) then k
      else digits_after_point fuel' q (k + 1)
  end.

Definition round_half_even (q : Q) : Z :=
  let f := Qfloor q in
  match Qcompare (q - inject_Z f) (1 # 2) with
  | Lt => f
  | Gt => f + 1
  | Eq => if Z.even f then f else f + 1
  end.

Definition of_Z (n : Z) : float := PrimFloat.of_uint63 (Uint63.of_Z n).

Definition select_float (x : float) : option float :=
  let q := value x in
  if Qle_bool 1 q && Qle_bool q 99999
  then let k := digits_after_point 5 q 0 in
       Some (PrimFloat.div
               (of_Z (round_half_even (q * inject_Z (10 ^ k))))
               (of_Z (10 ^ k)))
  else None.

(** The hours of a row that [add_entry] was given [h] for, as
    [get_all_entries] lists them. *)
Definition listed_hours (h : float) : option float :=
  select_float (to_single h).

Definition listed_as_given (h : float) : bool :=
  match listed_hours h with
  | Some x => PrimFloat.eqb x h
  | None => false
  end.

(** The multiples of 1/8 from 1 to 512. *)
Definition eighths : list float :=
  map (fun k => PrimFloat.div (of_Z (Z.of_nat k)) 8%float) (seq 8 4089).

End Binary64.

(* ================================================================== *)
(** * [database.py], continued: the sample data *)

(** A row as a caller hands it over, before it has an id: the tuple
    [(entry_date, category, hours_spent, remarks)]. *)
Definition Entry : Type := (date * string * Q * string)%type.

(** [cursor.executemany(query, entries)] for the [INSERT] of the source: the
    entries are inserted in order. *)
Fixpoint executemany_insert (entries : list Entry) : Op unit :=
  match entries with
  | [] => ret tt
  | (d, c, h, r) :: rest => execute_insert d c h r ;; executemany_insert rest
  end.

(** [str(n)] for a length. *)
Definition str_of_nat (n : nat) : string :=
  NilZero.string_of_uint (Nat.to_uint n).

Definition sample_entries : list Entry :=
  [ (nov 1, "Study", 7 # 2, "Online classes");
    (nov 1, "Social Media", 2, "Instagram and Twitter");
    (nov 2, "Gaming", 4, "Weekend gaming session");
    (nov 2, "Study", 5 # 2, "Homework and assignments");
    (nov 3, "Entertainment", 3 # 2, "YouTube videos");
    (nov 3, "Social Media", 5 # 2, "WhatsApp and Instagram");
    (nov 4, "Study", 4, "Exam preparation");
    (nov 4, "Gaming", 3 # 2, "Mobile games");
    (nov 5, "Work", 5, "Project work");
    (nov 5, "Entertainment", 2, "Netflix") ]%string%Q.

Definition insert_sample_data : Op (bool * string) :=
  try_except_Error
    (get_connection ;;
     conn_cursor ;;
     executemany_insert sample_entries ;;
     conn_commit ;;
     cursor_close ;;
     conn_close ;;
     ret (true,
          ("Inserted " ++ str_of_nat (List.length sample_entries)
           ++ " sample entries!")%string))
    (fun e => ret (false, ("Error inserting sample data: " ++ e)%string)).

(* ================================================================== *)
(** * [sample_data.py] *)

(** [insert_samples] returns nothing; the result here is the line it
    prints. *)
Definition insert_samples (entries : list Entry) : Op string :=
  try_except_Error
    (with_connect
       (conn_cursor ;;
        executemany_insert entries ;;
        cursor_close ;;
        conn_commit) ;;
     ret ("Inserted " ++ str_of_nat (List.length entries)
          ++ " sample records.")%string)
    (fun e => ret ("Database error: " ++ e)%string).

(* ================================================================== *)
(** * [analyze.py] *)

(** [THRESHOLD_HOURS = 6.0], in [analyze.py] and in [config.py] alike. *)
Definition THRESHOLD_HOURS : Q := 6.

(** Python's [x > y] on numbers. *)
Definition Qgtb (x y : Q) : bool := negb (Qle_bool x y).

(** [date.isoformat()]: [YYYY-MM-DD], zero padded. *)
Definition digit (n : Z) : ascii := ascii_of_nat (48 + Z.to_nat n).

Definition pad2 (n : Z) : string :=
  String (digit (n / 10)) (String (digit (n mod 10)) EmptyString).

Definition pad4 (n : Z) : string :=
  String (digit (n / 1000))
    (String (digit (n / 100 mod 10)) (pad2 (n mod 100))).

Definition isoformat (d : date) : string :=
  (pad4 (Date.year d) ++ "-" ++ pad2 (Date.month d) ++ "-"
   ++ pad2 (Date.day d))%string.

(** The dates a [datetime.date] can hold, as far as their digits go. *)
Definition valid_date (d : date) : bool :=
  (1 <=? Date.year d) && (Date.year d <=? 9999)
  && (1 <=? Date.month d) && (Date.month d <=? 12)
  && (1 <=? Date.day d) && (Date.day d <=? 31).

(** A [defaultdict(float)] in insertion order.  [d[k] += x] adds to the
    value filed under [k], or files [0.0 + x] under a new key. *)
Fixpoint dict_iadd (k : string) (x : Q) (d : list (string * Q))
  : list (string * Q) :=
  match d with
  | [] => [(k, 0 + x)%Q]
  | (k', v) :: d' =>
      if String.eqb k k' then (k', (v + x)%Q) :: d'
      else (k', v) :: dict_iadd k x d'
  end.

(** The value filed under a key, [0.0] when there is none. *)
Fixpoint lookup_total {K} (eqb : K -> K -> bool) (k : K) (l : list (K * Q))
  : Q :=
  match l with
  | [] => 0%Q
  | (k', v) :: l' => if eqb k k' then v else lookup_total eqb k l'
  end.

(** [sum(l)] and [max(l)] of Python, [np.mean(l)] of NumPy. *)
Definition py_sum (l : list Q) : Q := fold_left Qplus l 0%Q.

Definition py_max (l : list Q) : Q :=
  match l with
  | [] => 0%Q
  | x :: l' => fold_left (fun m y => if Qgtb y m then y else m) l' x
  end.

Definition np_mean (l : list Q) : Q :=
  (py_sum l / inject_Z (Z.of_nat (List.length l)))%Q.

(** [SELECT entry_date, category, hours_spent, remarks FROM usage_log
     ORDER BY entry_date] *)
Definition q_records (t : list Row) : list Entry :=
  map (fun r => (entry_date r, category r, hours_spent r, remarks r))
    (order_by (fun a b => Date.leb (entry_date a) (entry_date b)) t).

(** [cursor.execute(sql); cursor.fetchall()] *)
Definition execute_fetchall {A} (q : list Row -> A) : Op A :=
  with_session (fun t => ret (q t)).

(** [fetch_records]: the rows, or [None] after printing the error.  The
    first component is what was printed. *)
Definition fetch_records : Op (list string * option (list Entry)) :=
  try_except_Error
    (rows <- with_connect
               (conn_cursor ;;
                rows <- execute_fetchall q_records ;;
                cursor_close ;;
                ret rows) ;;
     ret ([], Some rows))
    (fun e => ret ([("Database error: " ++ e)%string], None)).

(** What [analyze] computes and then prints (hours with two decimals). *)
Record Report : Type := mkReport {
  per_day       : list (string * Q);
  per_category  : list (string * Q);
  day_totals    : list Q;
  report_total  : Q;
  report_mean   : Q;
  report_max    : Q;
  per_day_lines : list (string * Q * bool);
  mean_alert    : bool;
  heavy_days    : list (string * Q)
}.

Definition tally (rows : list Entry)
  : list (string * Q) * list (string * Q) :=
  fold_left
    (fun acc (r : Entry) =>
       let '(d, c, h, _) := r in
       (dict_iadd (isoformat d) h (fst acc), dict_iadd c h (snd acc)))
    rows ([], []).

(** [analyze rows]; [None] stands for the early return after
    ["No records found."]. *)
Definition analyze (rows : option (list Entry)) : option Report :=
  match rows with
  | None => None
  | Some [] => None
  | Some rows =>
      let per_day := fst (tally rows) in
      let per_category := snd (tally rows) in
      let day_totals := map snd per_day in
      Some (mkReport per_day per_category day_totals
              (py_sum day_totals)
              (np_mean day_totals)
              (py_max day_totals)
              (map (fun d =>
                      (d, lookup_total String.eqb d per_day,
                       Qgtb (lookup_total String.eqb d per_day)
                         THRESHOLD_HOURS))
                 (order_by String.leb (map fst per_day)))
              (Qgtb (np_mean day_totals) THRESHOLD_HOURS)
              (map (fun d => (d, lookup_total String.eqb d per_day))
                 (map fst
                    (filter (fun dv => Qgtb (snd dv) THRESHOLD_HOURS)
                       per_day))))
  end.

(** The body of [if __name__ == "__main__"] of [analyze.py]. *)
Definition analyze_main : Op (list string * option Report) :=
  fetched <- fetch_records ;;
  ret (fst fetched, analyze (snd fetched)).

(* ================================================================== *)
(** * [app.py]: the form that adds an entry *)

(** What a page shows: the Streamlit call and its text. *)
Inductive Shown : Type :=
| st_error (msg : string)
| st_success (msg : string).

(** [show_add_entry], once the form is submitted. *)
Definition show_add_entry_submitted (entry_date : date) (category : string)
    (hours_spent : Q) (remarks : string) : Op Shown :=
  if Qle_bool hours_spent 0
  then ret (st_error
              "Please enter a valid number of hours (greater than 0).")
  else
    result <- add_entry entry_date category hours_spent remarks ;;
    if fst result
    then ret (st_success ("✅ " ++ snd result)%string)
    else ret (st_error ("❌ " ++ snd result)%string).

(* ================================================================== *)
(** * Further vocabulary *)

Fixpoint distinct (l : list Z) : bool :=
  match l with
  | [] => true
  | x :: l' => negb (existsb (Z.eqb x) l') && distinct l'
  end.

(** The table as [AUTO_INCREMENT PRIMARY KEY] keeps it: ids pairwise
    distinct and below the counter. *)
Definition table_ok (w : World) : bool :=
  ids_below_counter w && distinct (map entry_id (usage_log w)).

Definition dates_valid (w : World) : bool :=
  forallb (fun r => valid_date (entry_date r)) (usage_log w).

(** A run of [d[k] += x] over a list of keys and amounts. *)
Definition accumulate (kvs : list (string * Q)) (d : list (string * Q))
  : list (string * Q) :=
  fold_left (fun d kv => dict_iadd (fst kv) (snd kv) d) kvs d.

(** An [Entry] as its date key and as its category key, with its hours. *)
Definition by_day (e : Entry) : string * Q :=
  let '(d, _, h, _) := e in (isoformat d, h).

Definition by_category (e : Entry) : string * Q :=
  let '(_, c, h, _) := e in (c, h).

(** The columns of a row that [fetch_records] selects. *)
Definition entry_of (r : Row) : Entry :=
  (entry_date r, category r, hours_spent r, remarks r).

(** The rows a list of entries becomes, numbered from [n]. *)
Fixpoint number_rows (n : Z) (entries : list Entry) : list Row :=
  match entries with
  | [] => []
  | (d, c, h, r) :: rest => mkRow n d c h r :: number_rows (n + 1) rest
  end.


(* ================================================================== *)
(** * Running the functions of [database.py] *)

(** What a call returned, if it returned. *)
Definition returned {A} (r : outcome A * World) : option A :=
  match fst r with
  | Return a => Some a
  | _ => None
  end.

(** The world a call leaves behind once its connection is closed. *)
Definition closed (w : World) : World := set_session None w.

Ltac run_op H :=
  unfold try_except_Error, bind, get_connection, try_except_Error,
    mysql_connector_connect, conn_cursor, cursor_close, conn_commit,
    conn_close, execute_insert, execute_delete, read_sql, execute_fetchone,
    with_session, ret, raise_Exception;
  rewrite H; cbn;
  unfold closed, set_session, set_usage_log, set_auto_increment; cbn;
  rewrite ?H.

Lemma add_entry_run w d c h r :
  reachable w = true ->
  add_entry d c h r w =
  (Return (true, "Entry added successfully!"%string),
   mkWorld (reachable w) (usage_log w ++ [mkRow (auto_increment w) d c h r])
     (auto_increment w + 1) None).
Proof.
  intros H. unfold add_entry. run_op H. reflexivity.
Qed.

Lemma get_all_entries_run w :
  reachable w = true ->
  get_all_entries w = (Return (q_all_entries (usage_log w)), closed w).
Proof.
  intros H. unfold get_all_entries. run_op H. reflexivity.
Qed.

Lemma get_date_range_entries_run w s e :
  reachable w = true ->
  get_date_range_entries s e w =
  (Return (q_date_range s e (usage_log w)), closed w).
Proof.
  intros H. unfold get_date_range_entries. run_op H. reflexivity.
Qed.

Lemma get_daily_totals_run w :
  reachable w = true ->
  get_daily_totals w = (Return (q_daily_totals (usage_log w)), closed w).
Proof.
  intros H. unfold get_daily_totals. run_op H. reflexivity.
Qed.

Lemma get_category_totals_run w :
  reachable w = true ->
  get_category_totals w =
  (Return (q_category_totals (usage_log w)), closed w).
Proof.
  intros H. unfold get_category_totals. run_op H. reflexivity.
Qed.

Lemma get_statistics_run w :
  reachable w = true ->
  get_statistics w =
  (Return (mkStatistics (or_0 (q_total (usage_log w)))
             (or_0Z (q_count (usage_log w)))
             (or_0 (q_avg_daily (usage_log w)))
             (fst (q_date_span (usage_log w)))
             (snd (q_date_span (usage_log w)))),
   closed w).
Proof.
  intros H. unfold get_statistics. run_op H. reflexivity.
Qed.

Lemma delete_entry_run w id :
  reachable w = true ->
  delete_entry id w =
  (Return (if 0 <? Z.of_nat
                     (List.length
                        (filter (fun r => entry_id r =? id) (usage_log w)))
           then (true, "Entry deleted successfully!"%string)
           else (false, "Entry not found."%string)),
   mkWorld (reachable w)
     (filter (fun r => negb (entry_id r =? id)) (usage_log w))
     (auto_increment w) None).
Proof.
  intros H. unfold delete_entry. run_op H.
  destruct (0 <? _); reflexivity.
Qed.

(** With the server down, [get_connection] raises a plain [Exception], which
    no [except Error] of the callers catches. *)
Lemma get_connection_down w :
  reachable w = false ->
  get_connection w =
  (RaiseException
     "Database connection error: Can't connect to MySQL server"%string, w).
Proof.
  intros H. unfold get_connection, try_except_Error, mysql_connector_connect.
  rewrite H. reflexivity.
Qed.

(* ================================================================== *)
(** * Facts about dates *)

Ltac date_cases :=
  unfold Date.lt, Date.le, Date.ltb, Date.leb, Date.eqb, Date.compare;
  cbn [Date.year Date.month Date.day];
  repeat match goal with
         | |- context [Z.compare ?x ?y] => destruct (Z.compare_spec x y)
         | H : context [Z.compare ?x ?y] |- _ => destruct (Z.compare_spec x y)
         end.

Lemma Date_eqb_eq (a b : date) : Date.eqb a b = true <-> a = b.
Proof.
  destruct a as [y1 m1 d1], b as [y2 m2 d2].
  split.
  - date_cases; intros E; try discriminate E. subst. reflexivity.
  - intros E. injection E as -> -> ->. date_cases; try lia; reflexivity.
Qed.

Lemma Date_leb_total (a b : date) :
  Date.leb a b = true \/ Date.leb b a = true.
Proof.
  destruct a as [y1 m1 d1], b as [y2 m2 d2].
  date_cases; try lia; auto.
Qed.

Lemma Date_leb_trans (a b c : date) :
  Date.leb a b = true -> Date.leb b c = true -> Date.leb a c = true.
Proof.
  destruct a as [y1 m1 d1], b as [y2 m2 d2], c as [y3 m3 d3].
  date_cases; intros; try lia; try discriminate; reflexivity.
Qed.

Lemma Date_ltb_leb (a b : date) :
  Date.ltb a b = true <-> Date.leb a b = true /\ a <> b.
Proof.
  destruct a as [y1 m1 d1], b as [y2 m2 d2].
  split.
  - intros L. split.
    + revert L. date_cases; intros; try lia; try discriminate; reflexivity.
    + intros E. injection E as -> -> ->. revert L.
      date_cases; intros; try lia; discriminate.
  - intros [L N]. revert L.
    date_cases; intros; try lia; try discriminate; try reflexivity.
    all: exfalso; apply N; subst; reflexivity.
Qed.

Lemma Date_ltb_leb_false (a b : date) :
  Date.ltb a b = false <-> Date.leb b a = true.
Proof.
  destruct a as [y1 m1 d1], b as [y2 m2 d2].
  split; date_cases; intros; try lia; try discriminate; reflexivity.
Qed.

Lemma Date_leb_refl (a : date) : Date.leb a a = true.
Proof.
  destruct (Date_leb_total a a); assumption.
Qed.

(* ================================================================== *)
(** * Facts about [ORDER BY] *)

Section OrderByFacts.
Context {A : Type} (leb : A -> A -> bool).

Lemma insert_sorted_perm (x : A) (l : list A) :
  Permutation (insert_sorted leb x l) (x :: l).
Proof.
  induction l as [|y l IH]; cbn.
  - apply Permutation_refl.
  - destruct (leb x y).
    + apply Permutation_refl.
    + eapply Permutation_trans.
      * apply perm_skip. exact IH.
      * apply perm_swap.
Qed.

Lemma order_by_perm (l : list A) : Permutation (order_by leb l) l.
Proof.
  induction l as [|x l IH]; cbn.
  - constructor.
  - eapply Permutation_trans.
    + apply insert_sorted_perm.
    + apply perm_skip. exact IH.
Qed.

Lemma order_by_In (l : list A) (x : A) : In x (order_by leb l) <-> In x l.
Proof.
  split; apply Permutation_in.
  - apply order_by_perm.
  - apply Permutation_sym, order_by_perm.
Qed.

Hypothesis leb_total : forall x y, leb x y = true \/ leb y x = true.
Hypothesis leb_trans :
  forall x y z, leb x y = true -> leb y z = true -> leb x z = true.

Lemma insert_sorted_sorted (x : A) (l : list A) :
  StronglySorted (leR leb) l ->
  StronglySorted (leR leb) (insert_sorted leb x l).
Proof.
  induction l as [|y l IH]; cbn; intros S.
  - constructor; constructor.
  - apply StronglySorted_inv in S. destruct S as [S F].
    destruct (leb x y) eqn:E.
    + constructor.
      * constructor; assumption.
      * constructor; [exact E|].
        rewrite Forall_forall in F |- *. intros z Hz.
        eapply leb_trans; [exact E | apply F, Hz].
    + constructor.
      * apply IH, S.
      * rewrite Forall_forall in F |- *. intros z Hz.
        apply (Permutation_in _ (insert_sorted_perm x l)) in Hz.
        destruct Hz as [<- | Hz].
        -- destruct (leb_total x y) as [C | C]; [congruence | exact C].
        -- apply F, Hz.
Qed.

Lemma order_by_sorted (l : list A) :
  StronglySorted (leR leb) (order_by leb l).
Proof.
  induction l as [|x l IH]; cbn.
  - constructor.
  - apply insert_sorted_sorted, IH.
Qed.

End OrderByFacts.

Lemma StronglySorted_impl {A} (R S : A -> A -> Prop) (l : list A) :
  (forall x y, In x l -> In y l -> R x y -> S x y) ->
  StronglySorted R l -> StronglySorted S l.
Proof.
  induction l as [|a l IH]; intros HRS HS.
  - constructor.
  - apply StronglySorted_inv in HS. destruct HS as [HS F].
    constructor.
    + apply IH; [|exact HS]. intros x y Hx Hy. apply HRS; right; assumption.
    + rewrite Forall_forall in F |- *. intros y Hy.
      apply HRS; [left; reflexivity | right; exact Hy | apply F, Hy].
Qed.


(* ================================================================== *)
(** * Facts about sums *)

Lemma Qsum_app (l1 l2 : list Q) : (Qsum (l1 ++ l2) == Qsum l1 + Qsum l2)%Q.
Proof.
  induction l1 as [|x l1 IH]; cbn.
  - ring.
  - rewrite IH. ring.
Qed.

Lemma Qsum_perm (l1 l2 : list Q) :
  Permutation l1 l2 -> (Qsum l1 == Qsum l2)%Q.
Proof.
  induction 1 as [| x l l' _ IH | x y l | l l' l'' _ IH1 _ IH2]; cbn.
  - reflexivity.
  - rewrite IH. reflexivity.
  - ring.
  - rewrite IH1. exact IH2.
Qed.

Lemma sum_hours_app (g1 g2 : list Row) :
  (sum_hours (g1 ++ g2) == sum_hours g1 + sum_hours g2)%Q.
Proof.
  unfold sum_hours. rewrite map_app. apply Qsum_app.
Qed.

Lemma or_0_Some (q : Q) : (or_0 (Some q) == q)%Q.
Proof.
  cbn. destruct (Qeq_bool q 0) eqn:E.
  - apply Qeq_bool_eq in E. symmetry. exact E.
  - reflexivity.
Qed.

(* ================================================================== *)
(** * Facts about [GROUP BY] *)

Section GroupByFacts.
Context {K : Type} (eqb : K -> K -> bool) (key : Row -> K).
Hypothesis eqb_eq : forall x y, eqb x y = true <-> x = y.

Lemma eqb_refl (x : K) : eqb x x = true.
Proof. apply eqb_eq. reflexivity. Qed.

Lemma eqb_sym (x y : K) : eqb x y = eqb y x.
Proof.
  destruct (eqb x y) eqn:E1, (eqb y x) eqn:E2; try reflexivity.
  - apply eqb_eq in E1. subst. rewrite eqb_refl in E2. discriminate.
  - apply eqb_eq in E2. subst. rewrite eqb_refl in E1. discriminate.
Qed.

Lemma eqb_neq (x y : K) : eqb x y = false <-> x <> y.
Proof.
  split.
  - intros E H. apply eqb_eq in H. congruence.
  - intros H. destruct (eqb x y) eqn:E; [|reflexivity].
    apply eqb_eq in E. contradiction.
Qed.

Lemma find_group_add (r : Row) (k : K) (gs : list (K * list Row)) :
  find_group eqb k (add_to_group eqb key r gs) =
  find_group eqb k gs ++ (if eqb (key r) k then [r] else []).
Proof.
  induction gs as [|[k' g] gs IH]; cbn.
  - rewrite (eqb_sym k (key r)). reflexivity.
  - destruct (eqb (key r) k') eqn:E; cbn.
    + apply eqb_eq in E. subst k'.
      rewrite (eqb_sym k (key r)).
      destruct (eqb (key r) k); [reflexivity|].
      rewrite app_nil_r. reflexivity.
    + destruct (eqb k k') eqn:E'.
      * apply eqb_eq in E'. subst k'. rewrite E, app_nil_r. reflexivity.
      * exact IH.
Qed.

Lemma find_group_fold (k : K) (rows : list Row) (gs : list (K * list Row)) :
  find_group eqb k (fold_left (fun gs r => add_to_group eqb key r gs) rows gs) =
  find_group eqb k gs ++ members eqb key k rows.
Proof.
  revert gs. induction rows as [|r rows IH]; intros gs; cbn.
  - rewrite app_nil_r. reflexivity.
  - rewrite IH, find_group_add, <- app_assoc.
    destruct (eqb (key r) k); reflexivity.
Qed.

Lemma find_group_group_by (k : K) (rows : list Row) :
  find_group eqb k (group_by eqb key rows) = members eqb key k rows.
Proof.
  unfold group_by. rewrite find_group_fold. reflexivity.
Qed.

Lemma keys_add (r : Row) (gs : list (K * list Row)) :
  (In (key r) (map fst gs) /\
   map fst (add_to_group eqb key r gs) = map fst gs)
  \/
  (~ In (key r) (map fst gs) /\
   map fst (add_to_group eqb key r gs) = map fst gs ++ [key r]).
Proof.
  induction gs as [|[k' g] gs IH]; cbn.
  - right. split; [intros [] | reflexivity].
  - destruct (eqb (key r) k') eqn:E; cbn.
    + apply eqb_eq in E. left. split; [left; congruence | reflexivity].
    + apply eqb_neq in E.
      destruct IH as [[Hin Heq] | [Hnin Heq]].
      * left. split; [right; exact Hin | rewrite Heq; reflexivity].
      * right. split; [|rewrite Heq; reflexivity].
        intros [H | H]; [congruence | contradiction].
Qed.

Lemma NoDup_snoc {B} (l : list B) (x : B) :
  NoDup l -> ~ In x l -> NoDup (l ++ [x]).
Proof.
  intros ND Hnin.
  apply (Permutation_NoDup (l := x :: l)).
  - apply Permutation_cons_append.
  - constructor; assumption.
Qed.

Lemma keys_fold_NoDup (rows : list Row) (gs : list (K * list Row)) :
  NoDup (map fst gs) ->
  NoDup (map fst
           (fold_left (fun gs r => add_to_group eqb key r gs) rows gs)).
Proof.
  revert gs. induction rows as [|r rows IH]; intros gs ND; cbn.
  - exact ND.
  - apply IH.
    destruct (keys_add r gs) as [[_ Heq] | [Hnin Heq]]; rewrite Heq.
    + exact ND.
    + apply NoDup_snoc; assumption.
Qed.

Lemma group_by_keys_NoDup (rows : list Row) :
  NoDup (map fst (group_by eqb key rows)).
Proof.
  apply keys_fold_NoDup. constructor.
Qed.

Lemma inhabited_add (r : Row) (gs : list (K * list Row)) :
  inhabited gs -> inhabited (add_to_group eqb key r gs).
Proof.
  unfold inhabited.
  induction gs as [|[k' g] gs IH]; cbn; intros F.
  - constructor; [discriminate | constructor].
  - inversion F as [|? ? Hg F']; subst.
    destruct (eqb (key r) k').
    + constructor; [|exact F'].
      cbn. intros E. apply app_eq_nil in E. destruct E as [_ E].
      discriminate E.
    + constructor; [exact Hg | apply IH, F'].
Qed.

Lemma group_by_inhabited (rows : list Row) :
  inhabited (group_by eqb key rows).
Proof.
  unfold group_by.
  assert (G : forall gs, inhabited gs ->
            inhabited
              (fold_left (fun gs r => add_to_group eqb key r gs) rows gs)).
  { induction rows as [|r rows IH]; intros gs F; cbn.
    - exact F.
    - apply IH, inhabited_add, F. }
  apply G. constructor.
Qed.

Lemma find_group_In (k : K) (g : list Row) (gs : list (K * list Row)) :
  NoDup (map fst gs) -> In (k, g) gs -> find_group eqb k gs = g.
Proof.
  induction gs as [|[k' g'] gs IH]; cbn; intros ND Hin.
  - contradiction.
  - inversion ND as [|? ? Hnin ND']; subst.
    destruct Hin as [E | Hin].
    + injection E as -> ->. rewrite eqb_refl. reflexivity.
    + destruct (eqb k k') eqn:E.
      * apply eqb_eq in E. subst k'. exfalso. apply Hnin.
        change k with (fst (k, g)). apply in_map, Hin.
      * apply IH; assumption.
Qed.

Lemma find_group_absent (k : K) (gs : list (K * list Row)) :
  ~ In k (map fst gs) -> find_group eqb k gs = [].
Proof.
  induction gs as [|[k' g'] gs IH]; cbn; intros Hnin.
  - reflexivity.
  - destruct (eqb k k') eqn:E.
    + apply eqb_eq in E. exfalso. apply Hnin. left. congruence.
    + apply IH. intros H. apply Hnin. right. exact H.
Qed.

(** The group of a key is the rows that carry it. *)
Lemma group_by_members (k : K) (g : list Row) (rows : list Row) :
  In (k, g) (group_by eqb key rows) -> g = members eqb key k rows /\ g <> [].
Proof.
  intros Hin. split.
  - rewrite <- (find_group_group_by k rows). symmetry.
    apply find_group_In; [apply group_by_keys_NoDup | exact Hin].
  - pose proof (group_by_inhabited rows) as F.
    unfold inhabited in F. rewrite Forall_forall in F.
    apply (F (k, g) Hin).
Qed.

(** There is a group for a key exactly when some row carries it. *)
Lemma group_by_keys (k : K) (rows : list Row) :
  In k (map fst (group_by eqb key rows)) <->
  exists r, In r rows /\ key r = k.
Proof.
  split.
  - intros Hin. apply in_map_iff in Hin. destruct Hin as [[k' g] [E Hin]].
    cbn in E. subst k'.
    destruct (group_by_members k g rows Hin) as [Hg Hne].
    destruct g as [|r g]; [contradiction|].
    exists r.
    assert (M : In r (members eqb key k rows)) by (rewrite <- Hg; left; reflexivity).
    unfold members in M. apply filter_In in M. destruct M as [M1 M2].
    split; [exact M1 | apply eqb_eq, M2].
  - intros [r [Hr Hk]].
    destruct (in_dec
                (fun x y : K =>
                   match eqb x y as b
                         return (eqb x y = b -> {x = y} + {x <> y}) with
                   | true => fun E => left (proj1 (eqb_eq x y) E)
                   | false => fun E => right (proj1 (eqb_neq x y) E)
                   end eq_refl)
                k (map fst (group_by eqb key rows))) as [Hin | Hnin].
    + exact Hin.
    + exfalso.
      apply find_group_absent in Hnin.
      rewrite find_group_group_by in Hnin.
      assert (M : In r (members eqb key k rows)).
      { unfold members. apply filter_In. split; [exact Hr|].
        apply eqb_eq, Hk. }
      rewrite Hnin in M. contradiction.
Qed.

(** Grouping loses no hours and counts none twice. *)
Lemma sum_per_group_add (r : Row) (gs : list (K * list Row)) :
  (Qsum (map snd (sum_per_group (add_to_group eqb key r gs))) ==
   Qsum (map snd (sum_per_group gs)) + hours_spent r)%Q.
Proof.
  unfold sum_per_group.
  induction gs as [|[k' g] gs IH]; cbn [add_to_group map fst snd Qsum].
  - unfold sum_hours. cbn [map Qsum]. ring.
  - destruct (eqb (key r) k'); cbn [map fst snd Qsum].
    + rewrite sum_hours_app. unfold sum_hours at 2. cbn [map Qsum]. ring.
    + rewrite IH. ring.
Qed.

Lemma sum_per_group_fold (rows : list Row) (gs : list (K * list Row)) :
  (Qsum (map snd
           (sum_per_group
              (fold_left (fun gs r => add_to_group eqb key r gs) rows gs))) ==
   Qsum (map snd (sum_per_group gs)) + sum_hours rows)%Q.
Proof.
  revert gs. induction rows as [|r rows IH]; intros gs; cbn [fold_left].
  - unfold sum_hours. cbn [map Qsum]. ring.
  - rewrite IH, sum_per_group_add. unfold sum_hours. cbn [map Qsum]. ring.
Qed.

Lemma sum_per_group_total (rows : list Row) :
  (Qsum (map snd (sum_per_group (group_by eqb key rows))) ==
   sum_hours rows)%Q.
Proof.
  unfold group_by. rewrite sum_per_group_fold.
  unfold sum_per_group. cbn [map Qsum]. ring.
Qed.

End GroupByFacts.

(* ================================================================== *)
(** * Per-key totals *)

Lemma sum_per_group_keys {K} (gs : list (K * list Row)) :
  map fst (sum_per_group gs) = map fst gs.
Proof.
  unfold sum_per_group. rewrite map_map. reflexivity.
Qed.

Section Totals.
Context {K : Type} (eqb : K -> K -> bool) (key : Row -> K).
Context (leb : K * Q -> K * Q -> bool).
Hypothesis eqb_eq : forall x y, eqb x y = true <-> x = y.

Lemma totals_keys_NoDup (t : list Row) : NoDup (map fst (totals eqb key leb t)).
Proof.
  unfold totals.
  eapply Permutation_NoDup.
  - apply Permutation_map, Permutation_sym, order_by_perm.
  - rewrite sum_per_group_keys. apply group_by_keys_NoDup, eqb_eq.
Qed.

Lemma totals_keys (t : list Row) (k : K) :
  In k (map fst (totals eqb key leb t)) <-> exists r, In r t /\ key r = k.
Proof.
  rewrite <- (group_by_keys eqb key eqb_eq k t).
  rewrite <- (sum_per_group_keys (group_by eqb key t)).
  unfold totals. split; apply Permutation_in, Permutation_map.
  - apply order_by_perm.
  - apply Permutation_sym, order_by_perm.
Qed.

Lemma totals_value (t : list Row) (k : K) (v : Q) :
  In (k, v) (totals eqb key leb t) -> v = sum_hours (members eqb key k t).
Proof.
  unfold totals. rewrite order_by_In. unfold sum_per_group.
  rewrite in_map_iff. intros [[k' g] [E Hin]].
  cbn in E. injection E as -> <-.
  apply (group_by_members eqb key eqb_eq) in Hin.
  destruct Hin as [-> _]. reflexivity.
Qed.


End Totals.


Lemma or_0_sql_AVG (l : list Q) : (or_0 (sql_AVG l) == mean l)%Q.
Proof.
  destruct l as [|x l].
  - reflexivity.
  - unfold sql_AVG. rewrite or_0_Some. reflexivity.
Qed.

Lemma or_0_sql_SUM (l : list Q) : (or_0 (sql_SUM l) == Qsum l)%Q.
Proof.
  destruct l as [|x l].
  - reflexivity.
  - unfold sql_SUM. rewrite or_0_Some. reflexivity.
Qed.

(* ================================================================== *)
(** * The aggregate reports *)





(** ** [GROUP BY category] under the collation *)

Section CategoryTotalsFacts.
Variable t : list Row.

Let ckey (r : Row) : string := collation_key (category r).

Lemma category_group (k : string) (g : list Row) :
  In (k, g) (group_by String.eqb ckey t) ->
  (exists r, In r t /\ category r = first_category g) /\
  collation_key (first_category g) = k /\
  g = of_class (first_category g) t.
Proof.
  intros Hin.
  destruct (group_by_members String.eqb ckey String.eqb_eq k g t Hin)
    as [Hg Hne].
  destruct g as [|r0 g']; [contradiction|].
  assert (M : In r0 (members String.eqb ckey k t))
    by (rewrite <- Hg; left; reflexivity).
  unfold members in M. apply filter_In in M. destruct M as [M1 M2].
  apply String.eqb_eq in M2. cbn [first_category].
  split; [exists r0; split; [exact M1 | reflexivity]|].
  split; [exact M2|].
  rewrite Hg. unfold members, of_class, ckey in *. rewrite M2. reflexivity.
Qed.

Lemma q_category_totals_In (c : string) (v : Q) :
  In (c, v) (q_category_totals t) ->
  exists k g, In (k, g) (group_by String.eqb ckey t) /\
              c = first_category g /\ v = sum_hours g.
Proof.
  unfold q_category_totals. rewrite order_by_In, in_map_iff.
  intros [[k g] [E Hin]]. cbn [fst snd] in E. injection E as <- <-.
  exists k, g. split; [exact Hin | split; reflexivity].
Qed.

Lemma q_category_totals_classes :
  Permutation
    (map (fun cv => collation_key (fst cv)) (q_category_totals t))
    (map fst (group_by String.eqb ckey t)).
Proof.
  unfold q_category_totals.
  eapply Permutation_trans; [apply Permutation_map, order_by_perm|].
  rewrite map_map. cbn [fst snd].
  erewrite map_ext_in; [apply Permutation_refl|].
  intros [k g] Hin. cbn [fst snd].
  apply (category_group k g Hin).
Qed.



Lemma q_category_totals_listed (c : string) :
  In c (map fst (q_category_totals t)) ->
  exists r, In r t /\ category r = c.
Proof.
  rewrite in_map_iff. intros [[c' v] [E Hin]]. cbn [fst] in E. subst c'.
  apply q_category_totals_In in Hin. destruct Hin as [k [g [Hin [-> _]]]].
  apply (category_group k g Hin).
Qed.

Lemma q_category_totals_covers (r : Row) :
  In r t ->
  exists c, In c (map fst (q_category_totals t)) /\
            collation_key c = collation_key (category r).
Proof.
  intros Hr.
  assert (K : In (ckey r) (map fst (group_by String.eqb ckey t))).
  { apply (group_by_keys String.eqb ckey String.eqb_eq).
    exists r. split; [exact Hr | reflexivity]. }
  apply (Permutation_in _ (Permutation_sym q_category_totals_classes)) in K.
  apply in_map_iff in K. destruct K as [[c v] [E Hin]]. cbn [fst] in E.
  exists c. split; [|exact E].
  change c with (fst (c, v)). apply in_map, Hin.
Qed.

Lemma q_category_totals_value (c : string) (v : Q) :
  In (c, v) (q_category_totals t) -> v = sum_hours (of_class c t).
Proof.
  intros Hin. apply q_category_totals_In in Hin.
  destruct Hin as [k [g [Hin [-> ->]]]].
  f_equal. apply (category_group k g Hin).
Qed.


Lemma q_category_totals_sum :
  (Qsum (map snd (q_category_totals t)) == sum_hours t)%Q.
Proof.
  unfold q_category_totals.
  rewrite (Qsum_perm _ (map snd (sum_per_group
                                   (group_by String.eqb ckey t)))).
  - apply sum_per_group_total.
  - eapply Permutation_trans; [apply Permutation_map, order_by_perm|].
    unfold sum_per_group. rewrite !map_map. apply Permutation_refl.
Qed.

(** Where no two categories differ in case alone, a class is a category. *)
Lemma of_class_of_category (c : string) :
  case_consistent t ->
  (exists r, In r t /\ category r = c) ->
  of_class c t = of_category c t.
Proof.
  intros CC [r0 [H0 E0]]. unfold of_class, of_category.
  apply filter_ext_in. intros r Hr.
  destruct (String.eqb (category r) c) eqn:E.
  - apply String.eqb_eq in E. rewrite E. apply String.eqb_refl.
  - apply String.eqb_neq. intros EK. apply String.eqb_neq in E. apply E.
    rewrite <- E0. apply CC; [exact Hr | exact H0 |].
    rewrite E0. exact EK.
Qed.

End CategoryTotalsFacts.









(** C9.  On an empty table, with the server reachable, [get_statistics]
    returns (it does not raise) [total_hours = 0.0], [total_entries = 0],
    [avg_daily_hours = 0.0], and [None] for both [first_date] and
    [last_date]. *)
Theorem statistics_of_empty_store (w : World) :
  reachable w = true ->
  usage_log w = [] ->
  fst (get_statistics w) = Return (mkStatistics 0 0 0 None None).
Proof.
  intros H E. rewrite get_statistics_run by exact H.
  rewrite E. reflexivity.
Qed.

Lemma statistics_of_empty_store_witness :
  reachable empty_world = true /\
  usage_log empty_world = [] /\
  fst (get_statistics empty_world) = Return (mkStatistics 0 0 0 None None).
Proof.
  split; [reflexivity|]. split; [reflexivity|].
  apply (statistics_of_empty_store empty_world); reflexivity.
Defined.

(* ================================================================== *)
(** * Listings *)

Lemma Date_ltb_trans (a b c : date) :
  Date.ltb a b = true -> Date.ltb b c = true -> Date.ltb a c = true.
Proof.
  destruct a as [y1 m1 d1], b as [y2 m2 d2], c as [y3 m3 d3].
  date_cases; intros; try lia; try discriminate; reflexivity.
Qed.

Lemma Date_trichotomy (a b : date) :
  Date.ltb a b = true \/ a = b \/ Date.ltb b a = true.
Proof.
  destruct (Date.ltb a b) eqn:L; [left; reflexivity | right].
  apply Date_ltb_leb_false in L.
  destruct (date_eq_dec a b) as [E | N]; [left; exact E | right].
  apply Date_ltb_leb. split; [exact L | congruence].
Qed.

Lemma by_date_desc_id_desc_iff (a b : Row) :
  by_date_desc_id_desc a b = true <->
  Date.ltb (entry_date b) (entry_date a) = true \/
  (entry_date a = entry_date b /\ entry_id b <= entry_id a).
Proof.
  unfold by_date_desc_id_desc.
  rewrite orb_true_iff, andb_true_iff, Date_eqb_eq, Z.leb_le.
  reflexivity.
Qed.

Lemma by_date_desc_id_desc_total (a b : Row) :
  by_date_desc_id_desc a b = true \/ by_date_desc_id_desc b a = true.
Proof.
  rewrite !by_date_desc_id_desc_iff.
  destruct (Date_trichotomy (entry_date a) (entry_date b)) as [L | [E | L]].
  - right. left. exact L.
  - destruct (Z.le_ge_cases (entry_id a) (entry_id b)) as [C | C].
    + right. right. split; [symmetry; exact E | exact C].
    + left. right. split; [exact E | exact C].
  - left. left. exact L.
Qed.

Lemma by_date_desc_id_desc_trans (a b c : Row) :
  by_date_desc_id_desc a b = true ->
  by_date_desc_id_desc b c = true ->
  by_date_desc_id_desc a c = true.
Proof.
  rewrite !by_date_desc_id_desc_iff.
  intros [L1 | [E1 I1]] [L2 | [E2 I2]].
  - left. exact (Date_ltb_trans _ _ _ L2 L1).
  - left. rewrite <- E2. exact L1.
  - left. rewrite E1. exact L2.
  - right. split; [congruence | lia].
Qed.

Lemma by_date_desc_id_desc_date (a b : Row) :
  by_date_desc_id_desc a b = true ->
  Date.le (entry_date b) (entry_date a).
Proof.
  rewrite by_date_desc_id_desc_iff. intros [L | [E _]].
  - apply Date_ltb_leb in L. apply L.
  - rewrite E. apply Date_leb_refl.
Qed.

Lemma by_date_desc_id_desc_tie (a b : Row) :
  by_date_desc_id_desc a b = true ->
  entry_date a = entry_date b -> entry_id b <= entry_id a.
Proof.
  rewrite by_date_desc_id_desc_iff. intros [L | [_ I]] E.
  - rewrite E in L. apply Date_ltb_leb in L. destruct L as [_ N].
    contradiction N. reflexivity.
  - exact I.
Qed.

(** C8.  With the server reachable, [get_all_entries] returns the entries
    of the table (each once: a permutation of it) newest date first, and
    [get_date_range_entries start end] returns exactly the entries whose
    date lies between [start] and [end], both ends included, again newest
    date first. *)
Theorem list_entries_newest_first (w : World) (start_date end_date : date) :
  reachable w = true ->
  exists l lr,
    returned (get_all_entries w) = Some l /\
    returned (get_date_range_entries start_date end_date w) = Some lr /\
    Permutation l (usage_log w) /\
    StronglySorted (fun a b => Date.le (entry_date b) (entry_date a)) l /\
    Permutation lr
      (filter (fun r => Date.leb start_date (entry_date r)
                        && Date.leb (entry_date r) end_date)
         (usage_log w)) /\
    (forall r, In r lr <->
               In r (usage_log w) /\
               Date.le start_date (entry_date r) /\
               Date.le (entry_date r) end_date) /\
    StronglySorted (fun a b => Date.le (entry_date b) (entry_date a)) lr.
Proof.
  intros H.
  exists (q_all_entries (usage_log w)).
  exists (q_date_range start_date end_date (usage_log w)).
  rewrite get_all_entries_run, get_date_range_entries_run by exact H.
  unfold q_all_entries, q_date_range.
  split; [reflexivity|]. split; [reflexivity|].
  split; [apply order_by_perm|].
  split.
  { eapply StronglySorted_impl; [| apply order_by_sorted].
    - intros x y _ _. apply by_date_desc_id_desc_date.
    - apply by_date_desc_id_desc_total.
    - apply by_date_desc_id_desc_trans. }
  split; [apply order_by_perm|].
  split.
  { intros r. rewrite order_by_In, filter_In. unfold between.
    rewrite andb_true_iff. reflexivity. }
  eapply StronglySorted_impl; [| apply order_by_sorted].
  - intros x y _ _ L. exact L.
  - intros x y. unfold by_date_desc. apply Date_leb_total.
  - intros x y z L1 L2. unfold by_date_desc in *.
    exact (Date_leb_trans _ _ _ L2 L1).
Qed.

Lemma list_entries_newest_first_witness :
  reachable example_world = true /\
  exists l lr,
    returned (get_all_entries example_world) = Some l /\
    returned (get_date_range_entries (nov 2) (nov 5) example_world)
      = Some lr /\
    Permutation l (usage_log example_world) /\
    StronglySorted (fun a b => Date.le (entry_date b) (entry_date a)) l /\
    Permutation lr
      (filter (fun r => Date.leb (nov 2) (entry_date r)
                        && Date.leb (entry_date r) (nov 5))
         (usage_log example_world)) /\
    (forall r, In r lr <->
               In r (usage_log example_world) /\
               Date.le (nov 2) (entry_date r) /\
               Date.le (entry_date r) (nov 5)) /\
    StronglySorted (fun a b => Date.le (entry_date b) (entry_date a)) lr.
Proof.
  split.
  - reflexivity.
  - apply (list_entries_newest_first example_world (nov 2) (nov 5)).
    reflexivity.
Defined.

(** Among entries of one date, [get_all_entries] lists the larger
    [entry_id], the one inserted later, first. *)
Lemma get_all_entries_ties_by_id (w : World) :
  reachable w = true ->
  exists l,
    returned (get_all_entries w) = Some l /\
    StronglySorted
      (fun a b => entry_date a = entry_date b -> entry_id b <= entry_id a) l.
Proof.
  intros H. exists (q_all_entries (usage_log w)).
  rewrite get_all_entries_run by exact H.
  split; [reflexivity|].
  eapply StronglySorted_impl; [| apply order_by_sorted].
  - intros x y _ _. apply by_date_desc_id_desc_tie.
  - apply by_date_desc_id_desc_total.
  - apply by_date_desc_id_desc_trans.
Qed.

(* ================================================================== *)
(** * Inserting and deleting *)


Lemma filter_none {A} (p : A -> bool) (l : list A) :
  (forall x, In x l -> p x = false) -> filter p l = [].
Proof.
  induction l as [|a l IH]; cbn; intros Hp.
  - reflexivity.
  - rewrite (Hp a) by (left; reflexivity).
    apply IH. intros x Hx. apply Hp. right. exact Hx.
Qed.

Lemma filter_all {A} (p : A -> bool) (l : list A) :
  (forall x, In x l -> p x = true) -> filter p l = l.
Proof.
  induction l as [|a l IH]; cbn; intros Hp.
  - reflexivity.
  - rewrite (Hp a) by (left; reflexivity). f_equal.
    apply IH. intros x Hx. apply Hp. right. exact Hx.
Qed.

(** The counter stays ahead of the stored ids: on the empty table, and after
    every insertion and deletion. *)
Lemma ids_below_counter_empty : ids_below_counter empty_world = true.
Proof. reflexivity. Qed.

Lemma ids_below_counter_add_entry w d c h r :
  reachable w = true ->
  ids_below_counter w = true ->
  ids_below_counter (snd (add_entry d c h r w)) = true.
Proof.
  intros H F. rewrite add_entry_run by exact H.
  unfold ids_below_counter in *. cbn [snd usage_log auto_increment].
  rewrite forallb_app. apply andb_true_iff. split.
  - rewrite forallb_forall in F |- *. intros x Hx.
    specialize (F x Hx). apply Z.ltb_lt in F. apply Z.ltb_lt. lia.
  - cbn. rewrite andb_true_r. apply Z.ltb_lt. lia.
Qed.

Lemma ids_below_counter_delete_entry w id :
  reachable w = true ->
  ids_below_counter w = true ->
  ids_below_counter (snd (delete_entry id w)) = true.
Proof.
  intros H F. rewrite delete_entry_run by exact H.
  unfold ids_below_counter in *. cbn [snd usage_log auto_increment].
  rewrite forallb_forall in F |- *. intros x Hx.
  apply filter_In in Hx. apply F, Hx.
Qed.




Lemma add_entry_strict_run w d c h r :
  accepts w d c h r = true ->
  add_entry_strict d c h r w = add_entry d c h r w.
Proof.
  intros A. unfold accepts, storable in A.
  repeat (apply andb_true_iff in A; destruct A as [A ?]).
  unfold add_entry_strict, add_entry, execute_insert_strict.
  match goal with E : (String.length c <=? 50)%nat = true |- _ =>
    rewrite E end.
  reflexivity.
Qed.

(** Hours that are a multiple of 1/8 are listed as they were given, here
    from 1 to 512. *)
Lemma eighths_listed_as_given :
  forallb Binary64.listed_as_given Binary64.eighths = true /\
  hd_error Binary64.eighths = Some 1%float /\
  last Binary64.eighths 0%float = 512%float.
Proof.
  repeat split; vm_compute; reflexivity.
Qed.

(** A category of fifty-one characters. *)
Lemma wide_category_length :
  String.length "Reading the papers for the machine learning seminar" = 51%nat.
Proof. reflexivity. Qed.




(* ================================================================== *)
(** * The reads change nothing *)

Ltac read_frame w :=
  let H := fresh "H" in
  destruct (reachable w) eqn:H;
  [ first [ rewrite get_all_entries_run by exact H
          | rewrite get_date_range_entries_run by exact H
          | rewrite get_daily_totals_run by exact H
          | rewrite get_category_totals_run by exact H
          | rewrite get_statistics_run by exact H ];
    split; reflexivity
  | unfold get_all_entries, get_date_range_entries, get_daily_totals,
      get_category_totals, get_statistics, try_except_Error, bind;
    rewrite (get_connection_down w H); split; reflexivity ].

(** C10.  [get_all_entries], [get_date_range_entries], [get_daily_totals],
    [get_category_totals] and [get_statistics] leave the table as they
    found it, rows and counter, whether or not the server is reachable. *)
Theorem reads_leave_store_unchanged (w : World) (start_date end_date : date) :
  (usage_log (snd (get_all_entries w)) = usage_log w /\
   auto_increment (snd (get_all_entries w)) = auto_increment w) /\
  (usage_log (snd (get_date_range_entries start_date end_date w))
     = usage_log w /\
   auto_increment (snd (get_date_range_entries start_date end_date w))
     = auto_increment w) /\
  (usage_log (snd (get_daily_totals w)) = usage_log w /\
   auto_increment (snd (get_daily_totals w)) = auto_increment w) /\
  (usage_log (snd (get_category_totals w)) = usage_log w /\
   auto_increment (snd (get_category_totals w)) = auto_increment w) /\
  (usage_log (snd (get_statistics w)) = usage_log w /\
   auto_increment (snd (get_statistics w)) = auto_increment w).
Proof.
  split; [read_frame w|].
  split; [read_frame w|].
  split; [read_frame w|].
  split; [read_frame w|].
  read_frame w.
Qed.

(* ================================================================== *)
(** * Validation *)


Lemma insert_entry_run w d c h r :
  reachable w = true ->
  insert_entry (d, c, h, r) w =
  (Return "Record inserted successfully."%string,
   mkWorld (reachable w) (usage_log w ++ [mkRow (auto_increment w) d c h r])
     (auto_increment w + 1) None).
Proof.
  intros H. unfold insert_entry, with_connect, finally. run_op H.
  reflexivity.
Qed.



(* ================================================================== *)
(** * Beyond the specification: failures of the connection *)

Ltac run_down H :=
  unfold try_except_Error, bind, with_connect, finally;
  first [ rewrite (get_connection_down _ H)
        | unfold mysql_connector_connect; rewrite H ];
  reflexivity.

(** X1.  With the server down every function of [database.py] raises a
    plain [Exception] carrying the connector's message and leaves the world
    as it was.  [add_entry], [delete_entry] and [insert_sample_data] raise
    too: their [except Error] does not catch what [get_connection] raises,
    so they do not return [(False, ...)] then. *)
Theorem database_functions_raise_when_server_down
    (w : World) (d s e : date) (c r : string) (h : Q) (id : Z) :
  reachable w = false ->
  let down {A} : outcome A * World :=
    (RaiseException
       "Database connection error: Can't connect to MySQL server"%string,
     w) in
  add_entry d c h r w = down /\
  delete_entry id w = down /\
  insert_sample_data w = down /\
  get_all_entries w = down /\
  get_date_range_entries s e w = down /\
  get_daily_totals w = down /\
  get_category_totals w = down /\
  get_statistics w = down.
Proof.
  intros H down. unfold down.
  split; [unfold add_entry; run_down H|].
  split; [unfold delete_entry; run_down H|].
  split; [unfold insert_sample_data; run_down H|].
  split; [unfold get_all_entries; run_down H|].
  split; [unfold get_date_range_entries; run_down H|].
  split; [unfold get_daily_totals; run_down H|].
  split; [unfold get_category_totals; run_down H|].
  unfold get_statistics; run_down H.
Qed.

Lemma database_functions_raise_when_server_down_witness :
  reachable (mkWorld false [] 1 None) = false /\
  add_entry (nov 1) "Study" 1 "" (mkWorld false [] 1 None) =
    (RaiseException
       "Database connection error: Can't connect to MySQL server"%string,
     mkWorld false [] 1 None).
Proof.
  split.
  - reflexivity.
  - apply (database_functions_raise_when_server_down
             (mkWorld false [] 1 None) (nov 1) (nov 1) (nov 1)
             "Study"%string ""%string 1%Q 0 eq_refl).
Defined.

(* ================================================================== *)
(** * Beyond the specification: many rows at once *)

Lemma executemany_insert_run (entries : list Entry) (w : World) (t : list Row) :
  session w = Some t ->
  executemany_insert entries w =
  (Return tt,
   mkWorld (reachable w) (usage_log w)
     (auto_increment w + Z.of_nat (List.length entries))
     (Some (t ++ number_rows (auto_increment w) entries))).
Proof.
  revert w t. induction entries as [|[[[d c] h] r] rest IH]; intros w t S.
  - cbn. unfold ret. rewrite app_nil_r, Z.add_0_r, <- S.
    destruct w; reflexivity.
  - cbn [executemany_insert number_rows List.length].
    unfold bind, execute_insert, with_session. rewrite S.
    rewrite (IH _ (t ++ [mkRow (auto_increment w) d c h r])) by reflexivity.
    cbn. rewrite <- app_assoc. cbn.
    replace (auto_increment w + 1 + Z.of_nat (List.length rest))
      with (auto_increment w + Z.pos (Pos.of_succ_nat (List.length rest)))
      by lia.
    reflexivity.
Qed.

Lemma insert_sample_data_run (w : World) :
  reachable w = true ->
  insert_sample_data w =
  (Return (true, "Inserted 10 sample entries!"%string),
   mkWorld (reachable w)
     (usage_log w ++ number_rows (auto_increment w) sample_entries)
     (auto_increment w + 10) None).
Proof.
  intros H. destruct w as [up t n s]. cbn in H. subst up.
  unfold insert_sample_data, try_except_Error, bind, get_connection,
    try_except_Error, mysql_connector_connect, conn_cursor, with_session,
    ret.
  cbn [reachable session set_session usage_log auto_increment].
  rewrite (executemany_insert_run sample_entries _ t) by reflexivity.
  reflexivity.
Qed.

Lemma insert_samples_run (entries : list Entry) (w : World) :
  reachable w = true ->
  insert_samples entries w =
  (Return ("Inserted " ++ str_of_nat (List.length entries)
           ++ " sample records.")%string,
   mkWorld (reachable w)
     (usage_log w ++ number_rows (auto_increment w) entries)
     (auto_increment w + Z.of_nat (List.length entries)) None).
Proof.
  intros H. destruct w as [up t n s]. cbn in H. subst up.
  unfold insert_samples, try_except_Error, bind, with_connect, finally,
    bind, mysql_connector_connect, conn_cursor, with_session, ret.
  cbn [reachable session set_session usage_log auto_increment].
  rewrite (executemany_insert_run entries _ t) by reflexivity.
  reflexivity.
Qed.

(* ================================================================== *)
(** * Beyond the specification: the primary key *)

Lemma distinct_NoDup (l : list Z) : distinct l = true <-> NoDup l.
Proof.
  induction l as [|x l IH]; cbn.
  - split; [constructor | reflexivity].
  - rewrite andb_true_iff, negb_true_iff, IH. split.
    + intros [E ND]. constructor; [|exact ND].
      intros Hin.
      assert (C : existsb (Z.eqb x) l = true).
      { apply existsb_exists. exists x. split; [exact Hin|].
        apply Z.eqb_refl. }
      congruence.
    + intros ND. inversion ND as [|? ? Hnin ND']; subst.
      split; [|exact ND'].
      apply not_true_is_false. intros C.
      apply existsb_exists in C. destruct C as [y [Hy E]].
      apply Z.eqb_eq in E. subst y. contradiction.
Qed.

Lemma table_ok_iff (w : World) :
  table_ok w = true <->
  (forall r, In r (usage_log w) -> entry_id r < auto_increment w) /\
  NoDup (map entry_id (usage_log w)).
Proof.
  unfold table_ok, ids_below_counter.
  rewrite andb_true_iff, distinct_NoDup, forallb_forall.
  split; intros [F ND]; (split; [|exact ND]); intros r Hr.
  - apply Z.ltb_lt, F, Hr.
  - apply Z.ltb_lt, F, Hr.
Qed.

Lemma number_rows_ids (n : Z) (entries : list Entry) (r : Row) :
  In r (number_rows n entries) ->
  n <= entry_id r < n + Z.of_nat (List.length entries).
Proof.
  revert n. induction entries as [|[[[d c] h] x] rest IH]; intros n Hin.
  - contradiction.
  - cbn [number_rows List.length] in *. destruct Hin as [<- | Hin].
    + cbn. lia.
    + apply IH in Hin. lia.
Qed.

Lemma number_rows_NoDup (n : Z) (entries : list Entry) :
  NoDup (map entry_id (number_rows n entries)).
Proof.
  revert n. induction entries as [|[[[d c] h] x] rest IH]; intros n.
  - constructor.
  - cbn. constructor; [|apply IH].
    intros Hin. apply in_map_iff in Hin. destruct Hin as [r [E Hr]].
    apply number_rows_ids in Hr. lia.
Qed.



(** Dropping rows keeps their keys distinct. *)
Lemma keys_of_filter_NoDup {X Y} (keep : X -> bool) (key : X -> Y)
    (rows : list X) :
  NoDup (map key rows) -> NoDup (map key (filter keep rows)).
Proof.
  intros ND. induction rows as [|r rows IH]; cbn in *.
  - constructor.
  - inversion ND as [|? ? Hnin ND']; subst.
    destruct (keep r); cbn.
    + constructor; [|apply IH, ND'].
      intros Hin. apply Hnin. apply in_map_iff in Hin.
      destruct Hin as [x [E Hx]]. apply filter_In in Hx.
      apply in_map_iff. exists x. split; [exact E | apply Hx].
    + apply IH, ND'.
Qed.

(** Appending freshly numbered rows keeps the key. *)
Lemma table_ok_append (up : bool) (t : list Row) (n : Z) (s : option (list Row))
    (entries : list Entry) :
  table_ok (mkWorld up t n s) = true ->
  table_ok (mkWorld up (t ++ number_rows n entries)
              (n + Z.of_nat (List.length entries)) None) = true.
Proof.
  rewrite !table_ok_iff. cbn. intros [F ND]. split.
  - intros r Hr. apply in_app_or in Hr. destruct Hr as [Hr | Hr].
    + specialize (F r Hr). lia.
    + apply number_rows_ids in Hr. lia.
  - rewrite map_app. apply NoDup_app.
    + exact ND.
    + apply number_rows_NoDup.
    + intros a Ha Hb. apply in_map_iff in Ha, Hb.
      destruct Ha as [r1 [E1 H1]], Hb as [r2 [E2 H2]].
      specialize (F r1 H1). apply number_rows_ids in H2. lia.
Qed.

Lemma writes_down (w : World) :
  reachable w = false ->
  (forall d c h r, snd (add_entry d c h r w) = w) /\
  (forall id, snd (delete_entry id w) = w) /\
  snd (insert_sample_data w) = w.
Proof.
  intros H.
  split; [intros; unfold add_entry; run_down H|].
  split; [intros; unfold delete_entry; run_down H|].
  unfold insert_sample_data; run_down H.
Qed.

Lemma insert_entry_down (e : Entry) (w : World) :
  reachable w = false ->
  insert_entry e w =
  (Return "Database error: Can't connect to MySQL server"%string, w).
Proof.
  intros H. destruct e as [[[d c] h] r]. unfold insert_entry.
  unfold try_except_Error, bind, with_connect, bind,
    mysql_connector_connect.
  rewrite H. reflexivity.
Qed.

Lemma insert_samples_down (entries : list Entry) (w : World) :
  reachable w = false ->
  insert_samples entries w =
  (Return "Database error: Can't connect to MySQL server"%string, w).
Proof.
  intros H. unfold insert_samples.
  unfold try_except_Error, bind, with_connect, bind,
    mysql_connector_connect.
  rewrite H. reflexivity.
Qed.

(** X2.  The key of the table survives every write of the repository: if
    the ids are pairwise distinct and below the counter, they still are
    after [add_entry], [delete_entry], [insert_sample_data], [insert_samples]
    and [insert_entry], whether the server is reachable or not; and the
    empty table has the property. *)
Theorem table_ok_kept_by_every_write :
  table_ok empty_world = true /\
  forall w,
    table_ok w = true ->
    (forall d c h r, table_ok (snd (add_entry d c h r w)) = true) /\
    (forall id, table_ok (snd (delete_entry id w)) = true) /\
    table_ok (snd (insert_sample_data w)) = true /\
    (forall entries, table_ok (snd (insert_samples entries w)) = true) /\
    (forall e, table_ok (snd (insert_entry e w)) = true).
Proof.
  split; [reflexivity|].
  intros w OK.
  destruct (reachable w) eqn:H.
  - split.
    { intros d c h r. rewrite add_entry_run by exact H.
      destruct w as [up t n s]. cbn [snd usage_log auto_increment reachable].
      apply (table_ok_append up t n s [(d, c, h, r)] OK). }
    split.
    { intros id. rewrite delete_entry_run by exact H.
      apply table_ok_iff in OK. destruct OK as [F ND].
      apply table_ok_iff. cbn. split.
      - intros r Hr. apply filter_In in Hr. apply F, Hr.
      - apply keys_of_filter_NoDup, ND. }
    split.
    { rewrite insert_sample_data_run by exact H.
      destruct w as [up t n s]. cbn [snd usage_log auto_increment reachable].
      apply (table_ok_append up t n s sample_entries OK). }
    split.
    { intros entries. rewrite insert_samples_run by exact H.
      destruct w as [up t n s]. cbn [snd usage_log auto_increment reachable].
      apply (table_ok_append up t n s entries OK). }
    intros [[[d c] h] r]. rewrite insert_entry_run by exact H.
    destruct w as [up t n s]. cbn [snd usage_log auto_increment reachable].
    apply (table_ok_append up t n s [(d, c, h, r)] OK).
  - destruct (writes_down w H) as [A [D S]].
    split; [intros d c h r; rewrite A; exact OK|].
    split; [intros id; rewrite D; exact OK|].
    split; [rewrite S; exact OK|].
    split; [intros entries; rewrite insert_samples_down by exact H;
            exact OK|].
    intros e. rewrite insert_entry_down by exact H. exact OK.
Qed.

Lemma table_ok_kept_by_every_write_witness :
  table_ok example_world = true /\
  table_ok (snd (delete_entry 2 example_world)) = true /\
  table_ok (snd (insert_sample_data example_world)) = true.
Proof.
  split; [reflexivity|].
  destruct (proj2 table_ok_kept_by_every_write example_world eq_refl)
    as [_ [D [S _]]].
  split; [apply D | exact S].
Defined.

(* ================================================================== *)
(** * Beyond the specification: how the writes move the reports *)

Lemma statistics_totals (w : World) :
  reachable w = true ->
  exists st,
    returned (get_statistics w) = Some st /\
    (total_hours st == sum_hours (usage_log w))%Q /\
    total_entries st = Z.of_nat (List.length (usage_log w)).
Proof.
  intros H. eexists. rewrite get_statistics_run by exact H.
  split; [reflexivity|]. cbn [total_hours total_entries]. split.
  - unfold q_total. apply or_0_sql_SUM.
  - unfold or_0Z, q_count, sql_COUNT.
    destruct (Z.eqb_spec (Z.of_nat (List.length (usage_log w))) 0) as [E|_];
      [rewrite E|]; reflexivity.
Qed.

Lemma filter_keeps_below (t : list Row) (n : Z) :
  (forall r, In r t -> entry_id r < n) ->
  filter (fun r => negb (entry_id r =? n)) t = t.
Proof.
  intros F. apply filter_all. intros r Hr.
  apply negb_true_iff, Z.eqb_neq. specialize (F r Hr). lia.
Qed.

(** X3.  Insert, then delete what was inserted: with the server reachable,
    the stored ids below the counter and an entry that the columns hold,
    [add_entry] followed by [delete_entry] of the id just given out reports
    success twice and puts the rows of the table back exactly as they
    were; only the counter has moved, so the id is not given out again. *)
Theorem add_entry_then_delete_entry_restores_rows w d c h r :
  reachable w = true ->
  ids_below_counter w = true ->
  accepts w d c h r = true ->
  exists w1 w2,
    add_entry d c h r w =
      (Return (true, "Entry added successfully!"%string), w1) /\
    delete_entry (auto_increment w) w1 =
      (Return (true, "Entry deleted successfully!"%string), w2) /\
    usage_log w2 = usage_log w /\
    auto_increment w2 = auto_increment w + 1.
Proof.
  intros H F _.
  eexists. eexists.
  split; [apply add_entry_run; exact H|].
  rewrite delete_entry_run by exact H.
  cbn [usage_log auto_increment reachable].
  rewrite !filter_app. cbn [filter entry_id negb].
  rewrite Z.eqb_refl. cbn [negb].
  unfold ids_below_counter in F. rewrite forallb_forall in F.
  rewrite (filter_none (fun r => entry_id r =? auto_increment w)).
  2:{ intros x Hx. specialize (F x Hx). apply Z.ltb_lt in F.
      apply Z.eqb_neq. lia. }
  rewrite filter_keeps_below.
  2:{ intros x Hx. apply Z.ltb_lt, F, Hx. }
  cbn. rewrite app_nil_r.
  split; [reflexivity|]. split; reflexivity.
Qed.

Lemma add_entry_then_delete_entry_restores_rows_witness :
  reachable example_world = true /\
  ids_below_counter example_world = true /\
  accepts example_world (nov 3) "Work" 5 "" = true /\
  exists w1 w2,
    add_entry (nov 3) "Work" 5 "" example_world =
      (Return (true, "Entry added successfully!"%string), w1) /\
    delete_entry 4 w1 =
      (Return (true, "Entry deleted successfully!"%string), w2) /\
    usage_log w2 = usage_log example_world /\
    auto_increment w2 = 5.
Proof.
  split; [reflexivity|]. split; [reflexivity|]. split; [reflexivity|].
  apply (add_entry_then_delete_entry_restores_rows example_world (nov 3)
           "Work"%string 5%Q ""%string eq_refl eq_refl eq_refl).
Defined.

(** X4.  What [add_entry] does to [get_statistics]: with the server
    reachable, the stored hours exact and an entry that the columns hold,
    [total_hours] grows by the hours of the new entry, also when they lie
    outside [0,24], and [total_entries] by one. *)
Theorem add_entry_moves_statistics w d c h r :
  reachable w = true ->
  exact_table w = true ->
  accepts w d c h r = true ->
  exists st st',
    returned (get_statistics w) = Some st /\
    returned (get_statistics (snd (add_entry d c h r w))) = Some st' /\
    (total_hours st' == total_hours st + h)%Q /\
    total_entries st' = total_entries st + 1.
Proof.
  intros H _ _.
  destruct (statistics_totals w H) as [st [E [T N]]].
  assert (H1 : reachable (snd (add_entry d c h r w)) = true).
  { rewrite add_entry_run by exact H. exact H. }
  destruct (statistics_totals _ H1) as [st' [E' [T' N']]].
  exists st, st'. split; [exact E|]. split; [exact E'|].
  rewrite add_entry_run in T', N' by exact H.
  cbn [snd usage_log] in T', N'. split.
  - rewrite T', T, sum_hours_app. unfold sum_hours at 2.
    cbn [map hours_spent Qsum]. ring.
  - rewrite N', N, length_app. cbn [List.length]. lia.
Qed.

Lemma add_entry_moves_statistics_witness :
  reachable example_world = true /\
  exact_table example_world = true /\
  accepts example_world (nov 3) "Work" 30 "" = true /\
  exists st st',
    returned (get_statistics example_world) = Some st /\
    returned (get_statistics
                (snd (add_entry (nov 3) "Work" 30 "" example_world)))
      = Some st' /\
    (total_hours st' == total_hours st + 30)%Q /\
    total_entries st' = total_entries st + 1.
Proof.
  split; [reflexivity|]. split; [reflexivity|]. split; [reflexivity|].
  apply (add_entry_moves_statistics example_world (nov 3) "Work"%string
           30%Q ""%string eq_refl eq_refl eq_refl).
Defined.

Lemma filter_split_sum (p : Row -> bool) (t : list Row) :
  (sum_hours t ==
   sum_hours (filter p t) + sum_hours (filter (fun r => negb (p r)) t))%Q.
Proof.
  unfold sum_hours.
  induction t as [|a t IH]; cbn [filter map Qsum].
  - ring.
  - destruct (p a); cbn [negb map Qsum]; rewrite IH; ring.
Qed.

Lemma filter_split_length {A} (p : A -> bool) (t : list A) :
  (List.length t =
   List.length (filter p t) + List.length (filter (fun r => negb (p r)) t))
  %nat.
Proof.
  induction t as [|a t IH]; cbn [filter List.length].
  - reflexivity.
  - destruct (p a); cbn [negb List.length]; rewrite IH; lia.
Qed.

Lemma filter_by_id (t : list Row) (row : Row) :
  NoDup (map entry_id t) ->
  In row t ->
  filter (fun r => entry_id r =? entry_id row) t = [row].
Proof.
  induction t as [|a t IH]; cbn [map filter]; intros ND Hin.
  - contradiction.
  - inversion ND as [|? ? Hnin ND']; subst.
    destruct Hin as [-> | Hin].
    + rewrite Z.eqb_refl. f_equal.
      apply filter_none. intros x Hx. apply Z.eqb_neq. intros E.
      apply Hnin. rewrite <- E. apply in_map, Hx.
    + destruct (Z.eqb_spec (entry_id a) (entry_id row)) as [E | _].
      * exfalso. apply Hnin. rewrite E. apply in_map, Hin.
      * apply IH; assumption.
Qed.

(** X5.  What [delete_entry] does to [get_statistics]: with the server
    reachable, the ids of the table pairwise distinct and the stored hours
    exact, deleting the id of a stored row lowers [total_hours] by the
    hours of that row and [total_entries] by one. *)
Theorem delete_entry_moves_statistics w row :
  reachable w = true ->
  table_ok w = true ->
  exact_table w = true ->
  In row (usage_log w) ->
  exists st st',
    returned (get_statistics w) = Some st /\
    returned (get_statistics (snd (delete_entry (entry_id row) w)))
      = Some st' /\
    (total_hours st' == total_hours st - hours_spent row)%Q /\
    total_entries st' = total_entries st - 1.
Proof.
  intros H OK _ Hin.
  apply table_ok_iff in OK. destruct OK as [_ ND].
  destruct (statistics_totals w H) as [st [E [T N]]].
  assert (H1 : reachable (snd (delete_entry (entry_id row) w)) = true).
  { rewrite delete_entry_run by exact H. exact H. }
  destruct (statistics_totals _ H1) as [st' [E' [T' N']]].
  exists st, st'. split; [exact E|]. split; [exact E'|].
  rewrite delete_entry_run in T', N' by exact H.
  cbn [snd usage_log] in T', N'.
  pose proof (filter_split_sum (fun r => entry_id r =? entry_id row)
                (usage_log w)) as S.
  pose proof (filter_split_length (fun r => entry_id r =? entry_id row)
                (usage_log w)) as L.
  rewrite (filter_by_id _ _ ND Hin) in S, L.
  split.
  - assert (R : (sum_hours [row] == hours_spent row)%Q).
    { unfold sum_hours. cbn [map Qsum]. ring. }
    rewrite R in S. rewrite T', T, S. ring.
  - rewrite N', N, L. cbn [List.length]. lia.
Qed.

Lemma delete_entry_moves_statistics_witness :
  reachable example_world = true /\
  table_ok example_world = true /\
  exact_table example_world = true /\
  exists st st',
    returned (get_statistics example_world) = Some st /\
    returned (get_statistics (snd (delete_entry 2 example_world)))
      = Some st' /\
    (total_hours st' == total_hours st - 2)%Q /\
    total_entries st' = total_entries st - 1.
Proof.
  split; [reflexivity|]. split; [reflexivity|]. split; [reflexivity|].
  apply (delete_entry_moves_statistics example_world
           (mkRow 2 (nov 1) "Social Media" 2 "Instagram and Twitter")
           eq_refl eq_refl eq_refl).
  right. left. reflexivity.
Defined.

Section LookupFacts.
Context {K : Type} (eqb : K -> K -> bool) (key : Row -> K).
Context (leb : K * Q -> K * Q -> bool).
Hypothesis eqb_eq : forall x y, eqb x y = true <-> x = y.

Lemma lookup_total_cases (k : K) (l : list (K * Q)) :
  (exists v, In (k, v) l /\ lookup_total eqb k l = v) \/
  (~ In k (map fst l) /\ lookup_total eqb k l = 0%Q).
Proof.
  induction l as [|[k' v] l IH]; cbn.
  - right. split; [intros [] | reflexivity].
  - destruct (eqb k k') eqn:E.
    + apply eqb_eq in E. subst k'. left. exists v.
      split; [left; reflexivity | reflexivity].
    + destruct IH as [[v' [Hin Hv]] | [Hnin Hv]].
      * left. exists v'. split; [right; exact Hin | exact Hv].
      * right. split; [|exact Hv].
        intros [C | C]; [|contradiction].
        subst k'. rewrite (proj2 (eqb_eq k k) eq_refl) in E. discriminate.
Qed.

(** The total filed under a key is the sum over the rows that carry it,
    zero when none does. *)
Lemma lookup_total_totals (k : K) (t : list Row) :
  lookup_total eqb k (totals eqb key leb t) =
  sum_hours (members eqb key k t).
Proof.
  destruct (lookup_total_cases k (totals eqb key leb t))
    as [[v [Hin Hv]] | [Hnin Hv]]; rewrite Hv.
  - apply (totals_value eqb key leb eqb_eq t k v Hin).
  - unfold members.
    rewrite (filter_none (fun r => eqb (key r) k) t); [reflexivity|].
    intros r Hr. apply not_true_is_false. intros E. apply Hnin.
    apply (totals_keys eqb key leb eqb_eq). exists r.
    split; [exact Hr | apply eqb_eq, E].
Qed.

Lemma lookup_total_after_append (k : K) (t : list Row) (row : Row) :
  (lookup_total eqb k (totals eqb key leb (t ++ [row])) ==
   lookup_total eqb k (totals eqb key leb t)
   + (if eqb (key row) k then hours_spent row else 0))%Q.
Proof.
  rewrite !lookup_total_totals. unfold members.
  rewrite filter_app, sum_hours_app. cbn [filter].
  destruct (eqb (key row) k); unfold sum_hours; cbn [map Qsum]; ring.
Qed.

End LookupFacts.

Lemma lookup_class_cases (c : string) (l : list (string * Q)) :
  (exists c' v, In (c', v) l /\ collation_key c' = collation_key c /\
                lookup_class c l = v) \/
  ((forall c' v, In (c', v) l -> collation_key c' <> collation_key c) /\
   lookup_class c l = 0%Q).
Proof.
  induction l as [|[c0 v0] l IH]; cbn [lookup_class].
  - right. split; [intros c' v [] | reflexivity].
  - destruct (String.eqb (collation_key c0) (collation_key c)) eqn:E.
    + apply String.eqb_eq in E. left. exists c0, v0.
      split; [left; reflexivity | split; [exact E | reflexivity]].
    + apply String.eqb_neq in E.
      destruct IH as [[c' [v [Hin [K L]]]] | [None L]].
      * left. exists c', v.
        split; [right; exact Hin | split; [exact K | exact L]].
      * right. split; [|exact L].
        intros c' v [Eq | Hin].
        -- injection Eq as <- <-. exact E.
        -- apply (None c' v Hin).
Qed.

(** The total listed for the class of a category is the sum over the rows
    of that class, zero when there is none. *)
Lemma lookup_class_totals (c : string) (t : list Row) :
  lookup_class c (q_category_totals t) = sum_hours (of_class c t).
Proof.
  destruct (lookup_class_cases c (q_category_totals t))
    as [[c' [v [Hin [K L]]]] | [None L]]; rewrite L.
  - rewrite (q_category_totals_value t c' v Hin).
    unfold of_class. rewrite K. reflexivity.
  - unfold of_class.
    rewrite filter_none; [reflexivity|].
    intros r Hr. apply String.eqb_neq. intros K.
    destruct (q_category_totals_covers t r Hr) as [c' [Hin K']].
    apply in_map_iff in Hin. destruct Hin as [[c0 v] [E Hin]].
    cbn [fst] in E. subst c0.
    apply (None c' v Hin). rewrite K'. exact K.
Qed.

(** X6.  What [add_entry] does to the two breakdowns: with the server
    reachable, the stored hours exact, the categories plain and an entry
    that the columns hold, the total that [get_daily_totals] files under
    the date of the new entry grows by its hours (from zero if the date is
    new) and the totals of all other dates stay; likewise, up to letter
    case, for the categories of [get_category_totals].  No cap applies: a
    day's total may pass 24. *)
Theorem add_entry_moves_daily_and_category_totals w d c h r :
  reachable w = true ->
  exact_table w = true ->
  labels_plain w = true ->
  is_label c = true ->
  accepts w d c h r = true ->
  exists dt dt' ct ct',
    returned (get_daily_totals w) = Some dt /\
    returned (get_daily_totals (snd (add_entry d c h r w))) = Some dt' /\
    returned (get_category_totals w) = Some ct /\
    returned (get_category_totals (snd (add_entry d c h r w))) = Some ct' /\
    (forall d',
       lookup_total Date.eqb d' dt' ==
       lookup_total Date.eqb d' dt + (if Date.eqb d d' then h else 0))%Q /\
    (forall c',
       lookup_class c' ct' ==
       lookup_class c' ct
       + (if String.eqb (collation_key c) (collation_key c') then h
          else 0))%Q.
Proof.
  intros H _ _ _ _.
  assert (H1 : reachable (snd (add_entry d c h r w)) = true).
  { rewrite add_entry_run by exact H. exact H. }
  exists (q_daily_totals (usage_log w)).
  exists (q_daily_totals (usage_log (snd (add_entry d c h r w)))).
  exists (q_category_totals (usage_log w)).
  exists (q_category_totals (usage_log (snd (add_entry d c h r w)))).
  rewrite !get_daily_totals_run, !get_category_totals_run by assumption.
  split; [reflexivity|]. split; [reflexivity|].
  split; [reflexivity|]. split; [reflexivity|].
  rewrite add_entry_run by exact H. cbn [snd usage_log].
  split.
  - intros d'. unfold q_daily_totals.
    rewrite (lookup_total_after_append Date.eqb entry_date _ Date_eqb_eq).
    reflexivity.
  - intros c'. rewrite !lookup_class_totals. unfold of_class.
    rewrite filter_app, sum_hours_app. cbn [filter category].
    destruct (String.eqb (collation_key c) (collation_key c'));
      unfold sum_hours; cbn [map hours_spent Qsum]; ring.
Qed.

Lemma add_entry_moves_daily_and_category_totals_witness :
  reachable example_world = true /\
  exact_table example_world = true /\
  labels_plain example_world = true /\
  is_label "study" = true /\
  accepts example_world (nov 1) "study" 24 "" = true /\
  exists dt dt' ct ct',
    returned (get_daily_totals example_world) = Some dt /\
    returned (get_daily_totals
                (snd (add_entry (nov 1) "study" 24 "" example_world)))
      = Some dt' /\
    returned (get_category_totals example_world) = Some ct /\
    returned (get_category_totals
                (snd (add_entry (nov 1) "study" 24 "" example_world)))
      = Some ct' /\
    (lookup_total Date.eqb (nov 1) dt' ==
     lookup_total Date.eqb (nov 1) dt + 24)%Q /\
    (lookup_class "Study" ct' == lookup_class "Study" ct + 24)%Q.
Proof.
  split; [reflexivity|]. split; [reflexivity|]. split; [reflexivity|].
  split; [reflexivity|]. split; [reflexivity|].
  destruct (add_entry_moves_daily_and_category_totals example_world (nov 1)
              "study"%string 24%Q ""%string eq_refl eq_refl eq_refl eq_refl
              eq_refl)
    as [dt [dt' [ct [ct' [E1 [E2 [E3 [E4 [D C]]]]]]]]].
  exists dt, dt', ct, ct'.
  split; [exact E1|]. split; [exact E2|].
  split; [exact E3|]. split; [exact E4|].
  split; [exact (D (nov 1)) | exact (C "Study"%string)].
Defined.

(** The sample data of [insert_sample_data] is held by the columns as it
    is, with exact hours and plain categories. *)
Lemma sample_entries_held :
  accepts_all empty_world sample_entries = true /\
  exact_table (snd (insert_sample_data empty_world)) = true /\
  labels_plain (snd (insert_sample_data empty_world)) = true.
Proof.
  repeat split; vm_compute; reflexivity.
Qed.







(* ================================================================== *)
(** * Beyond the specification: the reports against one another *)

(** X9.  With the server reachable and the stored hours exact, the
    per-category totals of [get_category_totals] add up to the
    [total_hours] of [get_statistics], as the per-day totals do; and
    [total_entries] is the number of rows [get_all_entries] lists. *)
Theorem category_totals_add_up_to_total_hours (w : World) :
  reachable w = true ->
  exact_table w = true ->
  exists ct st l,
    returned (get_category_totals w) = Some ct /\
    returned (get_statistics w) = Some st /\
    returned (get_all_entries w) = Some l /\
    (Qsum (map snd ct) == total_hours st)%Q /\
    total_entries st = Z.of_nat (List.length l).
Proof.
  intros H _.
  destruct (statistics_totals w H) as [st [E [T N]]].
  exists (q_category_totals (usage_log w)), st,
         (q_all_entries (usage_log w)).
  rewrite get_category_totals_run, get_all_entries_run by exact H.
  split; [reflexivity|]. split; [exact E|]. split; [reflexivity|].
  split.
  - rewrite T. apply q_category_totals_sum.
  - rewrite N. unfold q_all_entries.
    rewrite (Permutation_length (order_by_perm by_date_desc_id_desc _)).
    reflexivity.
Qed.

Lemma category_totals_add_up_to_total_hours_witness :
  reachable example_world = true /\
  exact_table example_world = true /\
  exists ct st l,
    returned (get_category_totals example_world) = Some ct /\
    returned (get_statistics example_world) = Some st /\
    returned (get_all_entries example_world) = Some l /\
    (Qsum (map snd ct) == total_hours st)%Q /\
    total_entries st = Z.of_nat (List.length l).
Proof.
  split; [reflexivity|]. split; [reflexivity|].
  apply (category_totals_add_up_to_total_hours example_world eq_refl
           eq_refl).
Defined.

Lemma Date_le_antisym (a b : date) :
  Date.leb a b = true -> Date.leb b a = true -> a = b.
Proof.
  intros L1 L2. destruct (date_eq_dec a b) as [E | N]; [exact E|].
  assert (L : Date.ltb a b = true) by (apply Date_ltb_leb; split; assumption).
  apply Date_ltb_leb_false in L2. congruence.
Qed.

Lemma fold_min_spec (l : list date) (d0 : date) :
  let m := fold_left (fun m x => if Date.ltb x m then x else m) l d0 in
  (m = d0 \/ In m l) /\ Date.leb m d0 = true /\
  forall x, In x l -> Date.leb m x = true.
Proof.
  revert d0. induction l as [|a l IH]; intros d0; cbn.
  - split; [left; reflexivity|]. split; [apply Date_leb_refl|].
    intros x [].
  - destruct (Date.ltb a d0) eqn:E.
    + destruct (IH a) as [I [L F]].
      assert (La : Date.leb a d0 = true) by (apply Date_ltb_leb in E; apply E).
      split; [right; destruct I as [-> | I]; [left; reflexivity
                                              | right; exact I]|].
      split; [eapply Date_leb_trans; eassumption|].
      intros x [<- | Hx]; [exact L | apply F, Hx].
    + destruct (IH d0) as [I [L F]].
      apply Date_ltb_leb_false in E.
      split; [destruct I as [-> | I]; [left; reflexivity
                                       | right; right; exact I]|].
      split; [exact L|].
      intros x [<- | Hx]; [eapply Date_leb_trans; eassumption | apply F, Hx].
Qed.

Lemma fold_max_spec (l : list date) (d0 : date) :
  let m := fold_left (fun m x => if Date.ltb m x then x else m) l d0 in
  (m = d0 \/ In m l) /\ Date.leb d0 m = true /\
  forall x, In x l -> Date.leb x m = true.
Proof.
  revert d0. induction l as [|a l IH]; intros d0; cbn.
  - split; [left; reflexivity|]. split; [apply Date_leb_refl|].
    intros x [].
  - destruct (Date.ltb d0 a) eqn:E.
    + destruct (IH a) as [I [L F]].
      assert (La : Date.leb d0 a = true) by (apply Date_ltb_leb in E; apply E).
      split; [right; destruct I as [-> | I]; [left; reflexivity
                                              | right; exact I]|].
      split; [eapply Date_leb_trans; eassumption|].
      intros x [<- | Hx]; [exact L | apply F, Hx].
    + destruct (IH d0) as [I [L F]].
      apply Date_ltb_leb_false in E.
      split; [destruct I as [-> | I]; [left; reflexivity
                                       | right; right; exact I]|].
      split; [exact L|].
      intros x [<- | Hx]; [eapply Date_leb_trans; eassumption | apply F, Hx].
Qed.

(** [MIN] and [MAX] of [entry_date] over a table that has rows. *)
Lemma q_date_span_spec (t : list Row) :
  t <> [] ->
  exists dmin dmax,
    q_date_span t = (Some dmin, Some dmax) /\
    In dmin (map entry_date t) /\ In dmax (map entry_date t) /\
    forall r, In r t ->
      Date.leb dmin (entry_date r) = true /\
      Date.leb (entry_date r) dmax = true.
Proof.
  intros NE. destruct t as [|a t]; [contradiction|].
  unfold q_date_span, sql_MIN, sql_MAX. cbn [map].
  destruct (fold_min_spec (map entry_date t) (entry_date a)) as [I1 [L1 F1]].
  destruct (fold_max_spec (map entry_date t) (entry_date a)) as [I2 [L2 F2]].
  eexists. eexists. split; [reflexivity|].
  split; [destruct I1 as [-> | I1]; [left; reflexivity | right; exact I1]|].
  split; [destruct I2 as [-> | I2]; [left; reflexivity | right; exact I2]|].
  intros r [<- | Hr].
  - split; assumption.
  - split; [apply F1 | apply F2]; apply in_map, Hr.
Qed.

Lemma StronglySorted_last {A} (R : A -> A -> Prop) (l : list A) (d x : A) :
  StronglySorted R l -> In x l -> x = last l d \/ R x (last l d).
Proof.
  induction l as [|a l IH]; intros S Hin.
  - contradiction.
  - apply StronglySorted_inv in S. destruct S as [S F].
    rewrite Forall_forall in F.
    destruct l as [|b l].
    + destruct Hin as [<- | []]. left. reflexivity.
    + change (last (a :: b :: l) d) with (last (b :: l) d).
      destruct Hin as [<- | Hin].
      * right. apply F.
        destruct (@exists_last _ (b :: l)) as [l' [z E]]; [discriminate|].
        rewrite E, last_last. apply in_or_app. right. left. reflexivity.
      * apply IH; assumption.
Qed.

Lemma q_daily_totals_sorted (t : list Row) :
  StronglySorted (fun a b => Date.leb (fst a) (fst b) = true)
    (q_daily_totals t).
Proof.
  unfold q_daily_totals, totals.
  apply (order_by_sorted (fun a b : date * Q => Date.leb (fst a) (fst b))).
  - intros x y. apply Date_leb_total.
  - intros x y z. apply Date_leb_trans.
Qed.

Lemma q_daily_totals_keys (t : list Row) (d : date) :
  In d (map fst (q_daily_totals t)) <-> In d (map entry_date t).
Proof.
  unfold q_daily_totals. rewrite (totals_keys _ _ _ Date_eqb_eq).
  rewrite in_map_iff. split; intros [r [A B]]; exists r; tauto.
Qed.

(** X10.  On a table that has rows, with the server reachable, [first_date]
    and [last_date] of [get_statistics] are the earliest and the latest
    [entry_date] stored: each is the date of some row, every row lies
    between them, and they are the first and the last date of
    [get_daily_totals]. *)
Theorem statistics_dates_are_earliest_and_latest (w : World) :
  reachable w = true ->
  usage_log w <> [] ->
  exists st dmin dmax dt,
    returned (get_statistics w) = Some st /\
    first_date st = Some dmin /\ last_date st = Some dmax /\
    (exists r, In r (usage_log w) /\ entry_date r = dmin) /\
    (exists r, In r (usage_log w) /\ entry_date r = dmax) /\
    (forall r, In r (usage_log w) ->
       Date.le dmin (entry_date r) /\ Date.le (entry_date r) dmax) /\
    returned (get_daily_totals w) = Some dt /\
    hd_error (map fst dt) = Some dmin /\
    last (map fst dt) dmin = dmax.
Proof.
  intros H NE.
  destruct (q_date_span_spec (usage_log w) NE)
    as [dmin [dmax [E [Imin [Imax F]]]]].
  eexists. exists dmin, dmax, (q_daily_totals (usage_log w)).
  rewrite get_statistics_run, get_daily_totals_run by exact H.
  split; [reflexivity|]. cbn [first_date last_date]. rewrite E.
  split; [reflexivity|]. split; [reflexivity|].
  split; [apply in_map_iff in Imin; destruct Imin as [r [A B]];
          exists r; tauto|].
  split; [apply in_map_iff in Imax; destruct Imax as [r [A B]];
          exists r; tauto|].
  split; [exact F|]. split; [reflexivity|].
  pose proof (q_daily_totals_sorted (usage_log w)) as S.
  pose proof (q_daily_totals_keys (usage_log w)) as Ks.
  assert (Fk : forall k, In k (map fst (q_daily_totals (usage_log w))) ->
                 Date.leb dmin k = true /\ Date.leb k dmax = true).
  { intros k Hk. apply Ks in Hk. apply in_map_iff in Hk.
    destruct Hk as [r [<- Hr]]. apply F, Hr. }
  assert (Sk : StronglySorted (fun a b => Date.leb a b = true)
                 (map fst (q_daily_totals (usage_log w)))).
  { clear - S. induction S as [|a l S IH Fa]; cbn; constructor.
    - exact IH.
    - rewrite Forall_forall in Fa |- *. intros k Hk.
      apply in_map_iff in Hk. destruct Hk as [b [<- Hb]]. apply Fa, Hb. }
  apply Ks in Imin, Imax.
  destruct (map fst (q_daily_totals (usage_log w))) as [|k ks] eqn:Ek;
    [contradiction|].
  split.
  - cbn. f_equal. apply Date_le_antisym.
    + destruct Imin as [-> | Imin]; [apply Date_leb_refl|].
      apply StronglySorted_inv in Sk. destruct Sk as [_ Fa].
      rewrite Forall_forall in Fa. apply Fa, Imin.
    + apply Fk. left. reflexivity.
  - destruct (StronglySorted_last _ _ dmin dmax Sk Imax) as [E1 | L].
    + symmetry. exact E1.
    + apply Date_le_antisym; [|exact L].
      apply Fk.
      destruct (@exists_last _ (k :: ks)) as [l' [z E2]]; [discriminate|].
      rewrite E2, last_last. apply in_or_app. right. left. reflexivity.
Qed.

Lemma statistics_dates_are_earliest_and_latest_witness :
  reachable example_world = true /\
  usage_log example_world <> [] /\
  exists st dmin dmax,
    returned (get_statistics example_world) = Some st /\
    first_date st = Some dmin /\ last_date st = Some dmax.
Proof.
  assert (NE : usage_log example_world <> []) by (vm_compute; discriminate).
  split; [reflexivity|]. split; [exact NE|].
  destruct (statistics_dates_are_earliest_and_latest example_world eq_refl NE)
    as [st [dmin [dmax [dt [E [A [B _]]]]]]].
  exists st, dmin, dmax. split; [exact E|]. split; [exact A | exact B].
Defined.

(** X11.  The edges of [get_date_range_entries], with the server reachable:
    a range whose end lies before its start yields the empty listing, not
    an error; and the range from [first_date] to [last_date] of
    [get_statistics] yields every row, the listing of [get_all_entries] up
    to the order among rows of one date. *)
Theorem date_range_edges (w : World) :
  reachable w = true ->
  (forall s e, Date.lt e s ->
     returned (get_date_range_entries s e w) = Some []) /\
  (forall st dmin dmax,
     returned (get_statistics w) = Some st ->
     first_date st = Some dmin -> last_date st = Some dmax ->
     exists lr l,
       returned (get_date_range_entries dmin dmax w) = Some lr /\
       returned (get_all_entries w) = Some l /\
       Permutation lr l).
Proof.
  intros H. split.
  - intros s e L. rewrite get_date_range_entries_run by exact H.
    unfold returned, q_date_range. cbn [fst].
    rewrite (filter_none (between s e)); [reflexivity|].
    intros r _. unfold between. apply not_true_is_false. intros B.
    apply andb_true_iff in B. destruct B as [B1 B2].
    pose proof (Date_leb_trans _ _ _ B1 B2) as B.
    apply Date_ltb_leb in L. destruct L as [L N].
    apply N. apply Date_le_antisym; assumption.
  - intros st dmin dmax E A B.
    rewrite get_statistics_run in E by exact H.
    unfold returned in E. cbn [fst] in E. injection E as <-.
    cbn [first_date last_date] in A, B.
    exists (q_date_range dmin dmax (usage_log w)),
           (q_all_entries (usage_log w)).
    rewrite get_date_range_entries_run, get_all_entries_run by exact H.
    split; [reflexivity|]. split; [reflexivity|].
    destruct (usage_log w) as [|a t] eqn:Et.
    + cbn. constructor.
    + assert (NE : a :: t <> []) by discriminate.
      destruct (q_date_span_spec (a :: t) NE) as [m [M [Es [_ [_ F]]]]].
      change (fst (q_date_span (a :: t)) = Some dmin) in A.
      change (snd (q_date_span (a :: t)) = Some dmax) in B.
      rewrite Es in A, B. cbn [fst snd] in A, B.
      injection A as ->. injection B as ->.
      unfold q_date_range, q_all_entries.
      rewrite (filter_all (between dmin dmax)).
      * eapply Permutation_trans; [apply order_by_perm|].
        apply Permutation_sym, order_by_perm.
      * intros r Hr. unfold between. apply andb_true_iff. apply F, Hr.
Qed.

Lemma date_range_edges_witness :
  reachable example_world = true /\
  returned (get_date_range_entries (nov 2) (nov 1) example_world) = Some [].
Proof.
  split; [reflexivity|].
  apply (proj1 (date_range_edges example_world eq_refl) (nov 2) (nov 1)).
  reflexivity.
Defined.

(* ================================================================== *)
(** * Facts about [isoformat] and the order of strings *)

Lemma digit_compare (x y : Z) :
  0 <= x <= 9 -> 0 <= y <= 9 ->
  Ascii.compare (digit x) (digit y) = (x ?= y).
Proof.
  intros Hx Hy.
  assert (Ex : x = 0 \/ x = 1 \/ x = 2 \/ x = 3 \/ x = 4 \/ x = 5 \/ x = 6
               \/ x = 7 \/ x = 8 \/ x = 9) by lia.
  assert (Ey : y = 0 \/ y = 1 \/ y = 2 \/ y = 3 \/ y = 4 \/ y = 5 \/ y = 6
               \/ y = 7 \/ y = 8 \/ y = 9) by lia.
  clear Hx Hy.
  repeat (destruct Ex as [-> | Ex]); try subst x;
    repeat (destruct Ey as [-> | Ey]); try subst y; reflexivity.
Qed.

Lemma compare_pad2 (n m : Z) (s t : string) :
  0 <= n <= 99 -> 0 <= m <= 99 ->
  String.compare (pad2 n ++ s) (pad2 m ++ t) =
  match n ?= m with
  | Eq => String.compare s t
  | c => c
  end.
Proof.
  intros Hn Hm. unfold pad2. cbn [String.append String.compare].
  rewrite !digit_compare by (Z.div_mod_to_equations; lia).
  destruct (Z.compare_spec (n / 10) (m / 10));
    destruct (Z.compare_spec (n mod 10) (m mod 10));
    destruct (Z.compare_spec n m);
    try reflexivity; exfalso; Z.div_mod_to_equations; lia.
Qed.

Lemma compare_pad4 (n m : Z) (s t : string) :
  0 <= n <= 9999 -> 0 <= m <= 9999 ->
  String.compare (pad4 n ++ s) (pad4 m ++ t) =
  match n ?= m with
  | Eq => String.compare s t
  | c => c
  end.
Proof.
  intros Hn Hm. unfold pad4.
  cbn [String.append String.compare].
  rewrite !digit_compare by (Z.div_mod_to_equations; lia).
  rewrite compare_pad2 by (Z.div_mod_to_equations; lia).
  destruct (Z.compare_spec (n / 1000) (m / 1000));
    destruct (Z.compare_spec (n / 100 mod 10) (m / 100 mod 10));
    destruct (Z.compare_spec (n mod 100) (m mod 100));
    destruct (Z.compare_spec n m);
    try reflexivity; exfalso; Z.div_mod_to_equations; lia.
Qed.

Lemma string_append_nil (s : string) : (s ++ "")%string = s.
Proof.
  induction s as [|c s IH]; cbn; [reflexivity | rewrite IH; reflexivity].
Qed.

Lemma valid_date_bounds (d : date) :
  valid_date d = true ->
  1 <= Date.year d <= 9999 /\ 1 <= Date.month d <= 12 /\
  1 <= Date.day d <= 31.
Proof.
  unfold valid_date. rewrite !andb_true_iff, !Z.leb_le. lia.
Qed.

(** On the dates a [datetime.date] can hold, the order of the ISO strings
    is the order of the dates. *)
Lemma isoformat_compare (a b : date) :
  valid_date a = true -> valid_date b = true ->
  String.compare (isoformat a) (isoformat b) = Date.compare a b.
Proof.
  intros Va Vb.
  apply valid_date_bounds in Va, Vb.
  unfold isoformat, Date.compare.
  rewrite compare_pad4 by lia.
  destruct (Date.year a ?= Date.year b); try reflexivity.
  cbn [String.append String.compare].
  change (Ascii.compare "-" "-") with Eq. cbv iota.
  rewrite compare_pad2 by lia.
  destruct (Date.month a ?= Date.month b); try reflexivity.
  cbn [String.append String.compare].
  change (Ascii.compare "-" "-") with Eq. cbv iota.
  rewrite <- (string_append_nil (pad2 (Date.day a))).
  rewrite <- (string_append_nil (pad2 (Date.day b))).
  rewrite compare_pad2 by lia.
  destruct (Date.day a ?= Date.day b); reflexivity.
Qed.

Lemma String_leb_trans (s1 s2 s3 : string) :
  String.leb s1 s2 = true -> String.leb s2 s3 = true ->
  String.leb s1 s3 = true.
Proof.
  unfold String.leb. revert s2 s3.
  induction s1 as [|c1 s1 IH]; intros [|c2 s2] [|c3 s3];
    cbn [String.compare]; try (intros; reflexivity); try discriminate.
  unfold Ascii.compare.
  destruct (N.compare_spec (N_of_ascii c1) (N_of_ascii c2));
    destruct (N.compare_spec (N_of_ascii c2) (N_of_ascii c3));
    destruct (N.compare_spec (N_of_ascii c1) (N_of_ascii c3));
    intros L1 L2; try reflexivity; try discriminate; try lia.
  apply (IH s2 s3); assumption.
Qed.

Lemma isoformat_leb (a b : date) :
  valid_date a = true -> valid_date b = true ->
  String.leb (isoformat a) (isoformat b) = Date.leb a b.
Proof.
  intros Va Vb. unfold String.leb, Date.leb.
  rewrite isoformat_compare by assumption. reflexivity.
Qed.

Lemma isoformat_inj (a b : date) :
  valid_date a = true -> valid_date b = true ->
  isoformat a = isoformat b -> a = b.
Proof.
  intros Va Vb E. apply Date_le_antisym.
  - rewrite <- isoformat_leb, E by assumption.
    destruct (String.leb_total (isoformat b) (isoformat b)); assumption.
  - rewrite <- isoformat_leb, E by assumption.
    destruct (String.leb_total (isoformat b) (isoformat b)); assumption.
Qed.

Lemma isoformat_eqb (a b : date) :
  valid_date a = true -> valid_date b = true ->
  String.eqb (isoformat a) (isoformat b) = Date.eqb a b.
Proof.
  intros Va Vb.
  destruct (Date.eqb a b) eqn:E.
  - apply Date_eqb_eq in E. subst b. apply String.eqb_refl.
  - apply String.eqb_neq. intros C.
    apply isoformat_inj in C; [|assumption|assumption].
    apply Date_eqb_eq in C. congruence.
Qed.

(* ================================================================== *)
(** * Facts about sorted lists, filters and dictionaries *)

Lemma sorted_unique {A} (R : A -> A -> Prop) (l1 l2 : list A) :
  (forall x y, R x y -> R y x -> x = y) ->
  StronglySorted R l1 -> StronglySorted R l2 ->
  Permutation l1 l2 -> l1 = l2.
Proof.
  intros anti. revert l2.
  induction l1 as [|a l1 IH]; intros l2 S1 S2 P.
  - apply Permutation_nil in P. symmetry. exact P.
  - destruct l2 as [|b l2].
    + apply Permutation_sym, Permutation_nil in P. discriminate P.
    + apply StronglySorted_inv in S1, S2.
      destruct S1 as [S1 F1], S2 as [S2 F2].
      rewrite Forall_forall in F1, F2.
      assert (E : a = b).
      { assert (Ia : In a (b :: l2))
          by (apply (Permutation_in _ P); left; reflexivity).
        assert (Ib : In b (a :: l1))
          by (apply (Permutation_in _ (Permutation_sym P)); left;
              reflexivity).
        destruct Ia as [Ia | Ia]; [symmetry; exact Ia|].
        destruct Ib as [Ib | Ib]; [exact Ib|].
        apply anti; [apply F1, Ib | apply F2, Ia]. }
      subst b. f_equal. apply IH; try assumption.
      apply (Permutation_cons_inv P).
Qed.

Lemma Permutation_filter {A} (p : A -> bool) (l l' : list A) :
  Permutation l l' -> Permutation (filter p l) (filter p l').
Proof.
  induction 1 as [| x l l' _ IH | x y l | l l' l'' _ IH1 _ IH2]; cbn.
  - constructor.
  - destruct (p x); [apply perm_skip|]; exact IH.
  - destruct (p x), (p y); try apply Permutation_refl.
    apply perm_swap.
  - eapply Permutation_trans; eassumption.
Qed.

Lemma filter_map_comm {A B} (f : A -> B) (p : B -> bool) (l : list A) :
  filter p (map f l) = map f (filter (fun x => p (f x)) l).
Proof.
  induction l as [|a l IH]; cbn.
  - reflexivity.
  - destruct (p (f a)); cbn; rewrite IH; reflexivity.
Qed.

Lemma py_sum_Qsum (l : list Q) : (py_sum l == Qsum l)%Q.
Proof.
  unfold py_sum.
  assert (G : forall a, (fold_left Qplus l a == a + Qsum l)%Q).
  { induction l as [|x l IH]; intros a; cbn.
    - ring.
    - rewrite IH. ring. }
  rewrite G. ring.
Qed.

Lemma dict_iadd_lookup (k k' : string) (x : Q) (d : list (string * Q)) :
  (lookup_total String.eqb k (dict_iadd k' x d) ==
   lookup_total String.eqb k d + (if String.eqb k' k then x else 0))%Q.
Proof.
  induction d as [|[k0 v] d IH]; cbn.
  - rewrite (String.eqb_sym k k'). destruct (String.eqb k' k); ring.
  - destruct (String.eqb k' k0) eqn:E0; cbn.
    + apply String.eqb_eq in E0. subst k0.
      rewrite (String.eqb_sym k k').
      destruct (String.eqb k' k); ring.
    + destruct (String.eqb k k0) eqn:E1.
      * apply String.eqb_eq in E1. subst k0. rewrite E0. ring.
      * exact IH.
Qed.

Lemma dict_iadd_keys (k' : string) (x : Q) (d : list (string * Q)) :
  (In k' (map fst d) /\ map fst (dict_iadd k' x d) = map fst d) \/
  (~ In k' (map fst d) /\ map fst (dict_iadd k' x d) = map fst d ++ [k']).
Proof.
  induction d as [|[k0 v] d IH]; cbn.
  - right. split; [intros [] | reflexivity].
  - destruct (String.eqb k' k0) eqn:E0; cbn.
    + apply String.eqb_eq in E0. left. split; [left; congruence|reflexivity].
    + apply String.eqb_neq in E0.
      destruct IH as [[I E] | [N E]].
      * left. split; [right; exact I | rewrite E; reflexivity].
      * right. split; [|rewrite E; reflexivity].
        intros [C | C]; [congruence | contradiction].
Qed.

Lemma dict_iadd_sum (k' : string) (x : Q) (d : list (string * Q)) :
  (Qsum (map snd (dict_iadd k' x d)) == Qsum (map snd d) + x)%Q.
Proof.
  induction d as [|[k0 v] d IH]; cbn [dict_iadd map snd Qsum].
  - ring.
  - destruct (String.eqb k' k0); cbn [map snd Qsum].
    + ring.
    + rewrite IH. ring.
Qed.

(** The dictionary a run of [+=] leaves: its keys are pairwise distinct and
    are the keys met; under each key lies the sum of its amounts. *)
Lemma accumulate_lookup (k : string) (kvs d : list (string * Q)) :
  (lookup_total String.eqb k (accumulate kvs d) ==
   lookup_total String.eqb k d
   + Qsum (map snd (filter (fun kv => String.eqb (fst kv) k) kvs)))%Q.
Proof.
  unfold accumulate. revert d.
  induction kvs as [|[k' x] kvs IH]; intros d; cbn [fold_left filter fst snd].
  - cbn. ring.
  - rewrite IH, dict_iadd_lookup.
    destruct (String.eqb k' k); cbn [map snd Qsum]; ring.
Qed.

Lemma accumulate_keys (k : string) (kvs d : list (string * Q)) :
  In k (map fst (accumulate kvs d)) <->
  In k (map fst d) \/ In k (map fst kvs).
Proof.
  unfold accumulate. revert d.
  induction kvs as [|[k' x] kvs IH]; intros d; cbn [fold_left map fst snd].
  - cbn. tauto.
  - rewrite IH.
    destruct (dict_iadd_keys k' x d) as [[I E] | [N E]]; rewrite E.
    + cbn [In]. split; [tauto|].
      intros [A | [A | A]]; [tauto | subst; tauto | tauto].
    + rewrite in_app_iff. cbn [In]. tauto.
Qed.

Lemma accumulate_NoDup (kvs d : list (string * Q)) :
  NoDup (map fst d) -> NoDup (map fst (accumulate kvs d)).
Proof.
  unfold accumulate. revert d.
  induction kvs as [|[k' x] kvs IH]; intros d ND; cbn [fold_left].
  - exact ND.
  - apply IH. cbn [fst snd].
    destruct (dict_iadd_keys k' x d) as [[I E] | [N E]]; rewrite E.
    + exact ND.
    + apply NoDup_snoc; assumption.
Qed.

Lemma accumulate_sum (kvs d : list (string * Q)) :
  (Qsum (map snd (accumulate kvs d)) ==
   Qsum (map snd d) + Qsum (map snd kvs))%Q.
Proof.
  unfold accumulate. revert d.
  induction kvs as [|[k' x] kvs IH]; intros d; cbn [fold_left map snd Qsum].
  - ring.
  - rewrite IH, dict_iadd_sum. cbn [fst snd]. ring.
Qed.

Lemma tally_accumulate (rows : list Entry) :
  tally rows =
  (accumulate (map by_day rows) [], accumulate (map by_category rows) []).
Proof.
  unfold tally, accumulate.
  generalize (@nil (string * Q)) at 1 3.
  generalize (@nil (string * Q)).
  induction rows as [|[[[d c] h] r] rows IH]; intros pc pd; cbn.
  - reflexivity.
  - rewrite IH. reflexivity.
Qed.

(* ================================================================== *)
(** * Facts about [analyze.py] *)

Lemma fetch_records_run (w : World) :
  reachable w = true ->
  fetch_records w = (Return ([], Some (q_records (usage_log w))), closed w).
Proof.
  intros H. destruct w as [up t n s]. cbn in H. subst up.
  reflexivity.
Qed.

Lemma fetch_records_down (w : World) :
  reachable w = false ->
  fetch_records w =
  (Return (["Database error: Can't connect to MySQL server"%string], None), w).
Proof.
  intros H. unfold fetch_records, try_except_Error, bind, with_connect, bind,
    mysql_connector_connect.
  rewrite H. reflexivity.
Qed.

Lemma q_records_perm (t : list Row) :
  exists sorted,
    q_records t = map entry_of sorted /\ Permutation sorted t /\
    StronglySorted
      (fun a b => Date.leb (entry_date a) (entry_date b) = true) sorted.
Proof.
  exists (order_by (fun a b => Date.leb (entry_date a) (entry_date b)) t).
  split; [reflexivity|]. split; [apply order_by_perm|].
  apply (order_by_sorted
           (fun a b : Row => Date.leb (entry_date a) (entry_date b))).
  - intros x y. apply Date_leb_total.
  - intros x y z. apply Date_leb_trans.
Qed.

Lemma NoDup_keys_unique {K} (l : list (K * Q)) (k : K) (v v' : Q) :
  NoDup (map fst l) -> In (k, v) l -> In (k, v') l -> v = v'.
Proof.
  induction l as [|[k0 v0] l IH]; cbn; intros ND H1 H2.
  - contradiction.
  - inversion ND as [|? ? Hnin ND']; subst.
    destruct H1 as [E1 | H1], H2 as [E2 | H2].
    + congruence.
    + injection E1 as -> ->. exfalso. apply Hnin.
      change k with (fst (k, v')). apply in_map, H2.
    + injection E2 as -> ->. exfalso. apply Hnin.
      change k with (fst (k, v)). apply in_map, H1.
    + apply IH; assumption.
Qed.

Lemma lookup_total_In (l : list (string * Q)) (k : string) (v : Q) :
  NoDup (map fst l) -> In (k, v) l -> lookup_total String.eqb k l = v.
Proof.
  intros ND Hin.
  destruct (lookup_total_cases String.eqb String.eqb_eq k l)
    as [[v' [Hin' E]] | [Hnin _]].
  - rewrite E. apply (NoDup_keys_unique l k v' v ND Hin' Hin).
  - exfalso. apply Hnin. change k with (fst (k, v)). apply in_map, Hin.
Qed.

Lemma StronglySorted_map {A B} (f : A -> B) (R : B -> B -> Prop)
    (l : list A) :
  StronglySorted (fun a b => R (f a) (f b)) l -> StronglySorted R (map f l).
Proof.
  induction 1 as [|a l S IH F]; cbn; constructor.
  - exact IH.
  - rewrite Forall_forall in F |- *. intros y Hy.
    apply in_map_iff in Hy. destruct Hy as [x [<- Hx]]. apply F, Hx.
Qed.

Lemma Forall2_map_self {A B} (P : B -> A -> Prop) (f : A -> B) (l : list A) :
  (forall x, In x l -> P (f x) x) -> Forall2 P (map f l) l.
Proof.
  induction l as [|a l IH]; cbn; intros H.
  - constructor.
  - constructor; [apply H; left; reflexivity|].
    apply IH. intros x Hx. apply H. right. exact Hx.
Qed.

Lemma Qgtb_comp (x y z : Q) : (x == y)%Q -> Qgtb x z = Qgtb y z.
Proof.
  intros E. unfold Qgtb. rewrite E. reflexivity.
Qed.

Lemma Qgtb_lt (x y : Q) : Qgtb x y = true <-> (y < x)%Q.
Proof.
  unfold Qgtb. rewrite negb_true_iff. split.
  - intros E. apply Qnot_le_lt. intros L.
    apply Qle_bool_iff in L. congruence.
  - intros L. apply not_true_is_false. intros E.
    apply Qle_bool_iff in E. exact (Qlt_not_le _ _ L E).
Qed.

Section AnalyzeFacts.
Variable t : list Row.
Hypothesis dates_ok : forall r, In r t -> valid_date (entry_date r) = true.

Lemma by_day_records :
  map by_day (q_records t) =
  map (fun r => (isoformat (entry_date r), hours_spent r))
    (order_by (fun a b => Date.leb (entry_date a) (entry_date b)) t).
Proof.
  unfold q_records. rewrite map_map. reflexivity.
Qed.

Lemma by_category_records :
  map by_category (q_records t) =
  map (fun r => (category r, hours_spent r))
    (order_by (fun a b => Date.leb (entry_date a) (entry_date b)) t).
Proof.
  unfold q_records. rewrite map_map. reflexivity.
Qed.

(** Under the ISO key of a date, [per_day] holds the hours of that date. *)
Lemma per_day_lookup (d : date) :
  valid_date d = true ->
  (lookup_total String.eqb (isoformat d)
     (accumulate (map by_day (q_records t)) []) ==
   sum_hours (members Date.eqb entry_date d t))%Q.
Proof.
  intros Vd. rewrite accumulate_lookup, by_day_records.
  rewrite filter_map_comm, map_map. cbn [fst snd lookup_total].
  rewrite (filter_ext_in _ (fun r => Date.eqb (entry_date r) d)).
  - unfold sum_hours, members.
    rewrite (Qsum_perm _ (map hours_spent
                            (filter (fun r => Date.eqb (entry_date r) d) t))).
    + ring.
    + apply Permutation_map, Permutation_filter, order_by_perm.
  - intros r Hr. apply isoformat_eqb; [|exact Vd].
    apply order_by_In in Hr. apply dates_ok, Hr.
Qed.

Lemma per_day_keys (k : string) :
  In k (map fst (accumulate (map by_day (q_records t)) [])) <->
  exists r, In r t /\ k = isoformat (entry_date r).
Proof.
  rewrite accumulate_keys, by_day_records, map_map. cbn [map fst In].
  rewrite in_map_iff. split.
  - intros [[] | [r [E Hr]]]. exists r. apply order_by_In in Hr.
    split; [exact Hr | symmetry; exact E].
  - intros [r [Hr E]]. right. exists r.
    split; [symmetry; exact E | apply order_by_In, Hr].
Qed.

Lemma daily_totals_valid (d : date) :
  In d (map fst (q_daily_totals t)) -> valid_date d = true.
Proof.
  intros Hd. apply q_daily_totals_keys in Hd. apply in_map_iff in Hd.
  destruct Hd as [r [<- Hr]]. apply dates_ok, Hr.
Qed.

(** Sorting the ISO keys of [per_day] gives the dates of the daily totals,
    in their order. *)
Lemma sorted_keys_are_daily_dates :
  order_by String.leb (map fst (accumulate (map by_day (q_records t)) [])) =
  map isoformat (map fst (q_daily_totals t)).
Proof.
  apply (sorted_unique (fun x y => String.leb x y = true)).
  - apply String.leb_antisym.
  - apply (order_by_sorted String.leb).
    + apply String.leb_total.
    + apply String_leb_trans.
  - apply StronglySorted_map.
    assert (S : StronglySorted (fun a b => Date.leb a b = true)
                  (map fst (q_daily_totals t))).
    { apply StronglySorted_map, q_daily_totals_sorted. }
    eapply StronglySorted_impl; [|exact S].
    intros x y Hx Hy L. cbn beta.
    rewrite isoformat_leb by (apply daily_totals_valid; assumption).
    exact L.
  - apply NoDup_Permutation.
    + eapply Permutation_NoDup.
      * apply Permutation_sym, order_by_perm.
      * apply accumulate_NoDup. constructor.
    + apply NoDup_map_NoDup_ForallPairs.
      * intros x y Hx Hy. apply isoformat_inj; apply daily_totals_valid;
          assumption.
      * unfold q_daily_totals. apply totals_keys_NoDup, Date_eqb_eq.
    + intros k. rewrite order_by_In, per_day_keys, in_map_iff. split.
      * intros [r [Hr ->]]. exists (entry_date r). split; [reflexivity|].
        apply q_daily_totals_keys, in_map, Hr.
      * intros [d [<- Hd]]. apply q_daily_totals_keys in Hd.
        apply in_map_iff in Hd. destruct Hd as [r [<- Hr]].
        exists r. split; [exact Hr | reflexivity].
Qed.

Lemma per_day_length :
  List.length (accumulate (map by_day (q_records t)) []) =
  List.length (q_daily_totals t).
Proof.
  pose proof (f_equal (@List.length string) sorted_keys_are_daily_dates) as E.
  rewrite (Permutation_length (order_by_perm String.leb _)) in E.
  rewrite !length_map in E. exact E.
Qed.

Lemma per_day_sum :
  (Qsum (map snd (accumulate (map by_day (q_records t)) [])) ==
   sum_hours t)%Q.
Proof.
  rewrite accumulate_sum, by_day_records, map_map. cbn [map snd Qsum].
  unfold sum_hours.
  rewrite (Qsum_perm _ (map hours_spent t)).
  - ring.
  - apply Permutation_map, order_by_perm.
Qed.

(** Python files the hours under the category as it is written. *)
Lemma per_category_lookup (c : string) :
  (lookup_total String.eqb c
     (accumulate (map by_category (q_records t)) []) ==
   sum_hours (of_category c t))%Q.
Proof.
  rewrite accumulate_lookup, by_category_records.
  rewrite filter_map_comm, map_map. cbn [fst snd lookup_total].
  unfold sum_hours, of_category.
  rewrite (Qsum_perm _ (map hours_spent
                          (filter (fun r => String.eqb (category r) c) t))).
  - ring.
  - apply Permutation_map, Permutation_filter, order_by_perm.
Qed.

Lemma per_category_keys (c : string) :
  In c (map fst (accumulate (map by_category (q_records t)) [])) <->
  exists r, In r t /\ category r = c.
Proof.
  rewrite accumulate_keys, by_category_records, map_map. cbn [map fst In].
  rewrite in_map_iff. split.
  - intros [[] | [r [E Hr]]]. exists r. apply order_by_In in Hr.
    split; [exact Hr | exact E].
  - intros [r [Hr E]]. right. exists r.
    split; [exact E | apply order_by_In, Hr].
Qed.

End AnalyzeFacts.

Section HeavyDays.
Variable t : list Row.
Hypothesis dates_ok : forall r, In r t -> valid_date (entry_date r) = true.

Lemma daily_total_of_date (d : date) (v : Q) :
  In (d, v) (q_daily_totals t) ->
  valid_date d = true /\
  (lookup_total String.eqb (isoformat d)
     (accumulate (map by_day (q_records t)) []) == v)%Q.
Proof.
  intros Hin.
  assert (Vd : valid_date d = true).
  { apply (daily_totals_valid t dates_ok). change d with (fst (d, v)).
    apply in_map, Hin. }
  split; [exact Vd|].
  rewrite (per_day_lookup t dates_ok d Vd).
  unfold q_daily_totals in Hin.
  rewrite (totals_value _ _ _ Date_eqb_eq t d v Hin). reflexivity.
Qed.

Lemma heavy_keys_iff (k : string) :
  In k (map fst
          (filter (fun dv => Qgtb (snd dv) THRESHOLD_HOURS)
             (accumulate (map by_day (q_records t)) []))) <->
  exists d v, In (d, v) (q_daily_totals t) /\ k = isoformat d /\
              (THRESHOLD_HOURS < v)%Q.
Proof.
  pose proof (accumulate_NoDup (map by_day (q_records t)) [] (NoDup_nil _))
    as ND.
  split.
  - intros Hk. apply in_map_iff in Hk. destruct Hk as [[k' v] [E Hin]].
    cbn [fst] in E. subst k'. apply filter_In in Hin. destruct Hin as [Hin Hv].
    cbn [snd] in Hv.
    assert (Kk : In k (map fst (accumulate (map by_day (q_records t)) []))).
    { change k with (fst (k, v)). apply in_map, Hin. }
    apply per_day_keys in Kk. destruct Kk as [r [Hr ->]].
    assert (Kd : In (entry_date r) (map fst (q_daily_totals t))).
    { apply q_daily_totals_keys, in_map, Hr. }
    apply in_map_iff in Kd. destruct Kd as [[d v'] [E Hd]].
    cbn [fst] in E. subst d.
    exists (entry_date r), v'. split; [exact Hd|]. split; [reflexivity|].
    destruct (daily_total_of_date _ _ Hd) as [_ L].
    rewrite (lookup_total_In _ _ _ ND Hin) in L.
    apply Qgtb_lt. rewrite <- (Qgtb_comp _ _ _ L). exact Hv.
  - intros [d [v [Hd [-> Lt]]]].
    destruct (daily_total_of_date _ _ Hd) as [Vd L].
    assert (Kk : In (isoformat d)
                   (map fst (accumulate (map by_day (q_records t)) []))).
    { apply per_day_keys.
      assert (Kd : In d (map fst (q_daily_totals t))).
      { change d with (fst (d, v)). apply in_map, Hd. }
      apply q_daily_totals_keys, in_map_iff in Kd.
      destruct Kd as [r [<- Hr]]. exists r. split; [exact Hr|reflexivity]. }
    apply in_map_iff in Kk. destruct Kk as [[k v0] [E Hin]].
    cbn [fst] in E. subst k.
    apply in_map_iff. exists (isoformat d, v0). split; [reflexivity|].
    apply filter_In. split; [exact Hin|]. cbn [snd].
    rewrite (lookup_total_In _ _ _ ND Hin) in L.
    rewrite (Qgtb_comp _ _ _ L). apply Qgtb_lt, Lt.
Qed.

Lemma heavy_count :
  List.length
    (filter (fun dv => Qgtb (snd dv) THRESHOLD_HOURS)
       (accumulate (map by_day (q_records t)) [])) =
  List.length
    (filter (fun dv => Qgtb (snd dv) THRESHOLD_HOURS) (q_daily_totals t)).
Proof.
  rewrite <- (length_map fst
                (filter _ (accumulate (map by_day (q_records t)) []))).
  rewrite <- (length_map fst (filter _ (q_daily_totals t))).
  rewrite <- (length_map isoformat (map fst (filter _ (q_daily_totals t)))).
  apply Permutation_length, NoDup_Permutation.
  - apply keys_of_filter_NoDup, accumulate_NoDup. constructor.
  - apply NoDup_map_NoDup_ForallPairs.
    + intros x y Hx Hy.
      apply isoformat_inj; apply (daily_totals_valid t dates_ok).
      * apply in_map_iff in Hx. destruct Hx as [p [<- Hp]].
        apply filter_In in Hp. apply in_map, Hp.
      * apply in_map_iff in Hy. destruct Hy as [p [<- Hp]].
        apply filter_In in Hp. apply in_map, Hp.
    + apply keys_of_filter_NoDup. unfold q_daily_totals.
      apply totals_keys_NoDup, Date_eqb_eq.
  - intros k. rewrite heavy_keys_iff. split.
    + intros [d [v [Hd [-> Lt]]]]. apply in_map. apply in_map_iff.
      exists (d, v). split; [reflexivity|]. apply filter_In.
      split; [exact Hd | apply Qgtb_lt, Lt].
    + intros Hk. apply in_map_iff in Hk. destruct Hk as [d [<- Hd]].
      apply in_map_iff in Hd. destruct Hd as [[d' v] [E Hp]].
      cbn [fst] in E. subst d'. apply filter_In in Hp. destruct Hp as [Hp Hv].
      exists d, v. split; [exact Hp|]. split; [reflexivity|].
      apply Qgtb_lt, Hv.
Qed.

End HeavyDays.

Lemma analyze_main_run (w : World) :
  reachable w = true ->
  analyze_main w =
  (Return ([], analyze (Some (q_records (usage_log w)))), closed w).
Proof.
  intros H. unfold analyze_main, bind.
  rewrite fetch_records_run by exact H. reflexivity.
Qed.

Lemma q_records_nonempty (t : list Row) : t <> [] -> q_records t <> [].
Proof.
  intros NE E. apply NE.
  apply (f_equal (@List.length Entry)) in E.
  unfold q_records in E.
  rewrite length_map, (Permutation_length (order_by_perm _ t)) in E.
  destruct t; [reflexivity | discriminate E].
Qed.

(** The report of [analyze] on rows that are there, field by field. *)
Lemma analyze_report (rows : list Entry) :
  rows <> [] ->
  exists rep,
    analyze (Some rows) = Some rep /\
    per_day rep = accumulate (map by_day rows) [] /\
    per_category rep = accumulate (map by_category rows) [] /\
    day_totals rep = map snd (per_day rep) /\
    report_total rep = py_sum (day_totals rep) /\
    report_mean rep = np_mean (day_totals rep) /\
    per_day_lines rep =
      map (fun d => (d, lookup_total String.eqb d (per_day rep),
                     Qgtb (lookup_total String.eqb d (per_day rep))
                       THRESHOLD_HOURS))
        (order_by String.leb (map fst (per_day rep))) /\
    mean_alert rep = Qgtb (report_mean rep) THRESHOLD_HOURS /\
    map fst (heavy_days rep) =
      map fst (filter (fun dv => Qgtb (snd dv) THRESHOLD_HOURS)
                 (per_day rep)).
Proof.
  intros NE. destruct rows as [|e rows]; [contradiction|].
  eexists. split; [reflexivity|].
  cbn [per_day per_category day_totals report_total report_mean
       per_day_lines mean_alert heavy_days].
  rewrite tally_accumulate. cbn [fst snd].
  repeat (split; [reflexivity|]).
  rewrite map_map. cbn [fst]. apply map_id.
Qed.

Lemma dates_valid_forall (w : World) :
  dates_valid w = true ->
  forall r, In r (usage_log w) -> valid_date (entry_date r) = true.
Proof.
  unfold dates_valid. rewrite forallb_forall. intros F r Hr. apply F, Hr.
Qed.

(* ================================================================== *)
(** * Beyond the specification: [analyze.py] against [database.py] *)

(** X13.  [fetch_records] returns the rows of the table, each once, by
    ascending date, when the server is reachable; with the server down it
    prints the error and returns [None], raising nothing.  [analyze] then
    stops at ["No records found."] exactly when the server is down or the
    table is empty. *)
Theorem fetch_records_sorted_or_none (w : World) :
  (reachable w = true ->
   exists sorted,
     fetch_records w = (Return ([], Some (map entry_of sorted)), closed w) /\
     Permutation sorted (usage_log w) /\
     StronglySorted
       (fun a b => Date.le (entry_date a) (entry_date b)) sorted) /\
  (reachable w = false ->
   fetch_records w =
   (Return (["Database error: Can't connect to MySQL server"%string], None),
    w)) /\
  ((exists printed, fst (analyze_main w) = Return (printed, None)) <->
   reachable w = false \/ usage_log w = []).
Proof.
  split; [|split].
  - intros H. destruct (q_records_perm (usage_log w)) as [sorted [E [P S]]].
    exists sorted. rewrite fetch_records_run, E by exact H.
    split; [reflexivity|]. split; assumption.
  - apply fetch_records_down.
  - destruct (reachable w) eqn:H.
    + rewrite analyze_main_run by exact H. cbn [fst]. split.
      * intros [printed E]. right.
        destruct (usage_log w) as [|a t] eqn:Et; [reflexivity|].
        exfalso.
        assert (NE : a :: t <> []) by discriminate.
        destruct (analyze_report _ (q_records_nonempty _ NE))
          as [rep [Er _]].
        rewrite Er in E. discriminate E.
      * intros [C | E]; [discriminate C|].
        exists []. rewrite E. reflexivity.
    + unfold analyze_main, bind. rewrite fetch_records_down by exact H.
      cbn [fst snd analyze]. split.
      * intros _. left. reflexivity.
      * intros _. eexists. reflexivity.
Qed.

Lemma fetch_records_sorted_or_none_witness :
  reachable example_world = true /\
  exists sorted,
    fetch_records example_world =
      (Return ([], Some (map entry_of sorted)), closed example_world) /\
    Permutation sorted (usage_log example_world).
Proof.
  split; [reflexivity|].
  destruct (proj1 (fetch_records_sorted_or_none example_world) eq_refl)
    as [sorted [E [P _]]].
  exists sorted. split; [exact E | exact P].
Defined.

(** X14.  The per-day lines [analyze] prints are the daily totals of
    [get_daily_totals]: with the server reachable, calendar dates and
    exact hours in the table and at least one row, there is one line per
    pair of
    [get_daily_totals], in the same (chronological) order, under the ISO
    form of its date, with an equal total, and flagged exactly when that
    total exceeds [THRESHOLD_HOURS]. *)
Theorem analyze_per_day_lines_are_daily_totals (w : World) :
  reachable w = true ->
  dates_valid w = true ->
  exact_table w = true ->
  usage_log w <> [] ->
  exists rep dt,
    returned (analyze_main w) = Some ([], Some rep) /\
    returned (get_daily_totals w) = Some dt /\
    Forall2
      (fun (line : string * Q * bool) (day : date * Q) =>
         fst (fst line) = isoformat (fst day) /\
         (snd (fst line) == snd day)%Q /\
         snd line = Qgtb (snd day) THRESHOLD_HOURS)
      (per_day_lines rep) dt.
Proof.
  intros H V _ NE.
  pose proof (dates_valid_forall w V) as ok.
  destruct (analyze_report _ (q_records_nonempty _ NE))
    as [rep [Er [Pd [_ [_ [_ [_ [Ls _]]]]]]]].
  exists rep, (q_daily_totals (usage_log w)).
  rewrite analyze_main_run, get_daily_totals_run by exact H.
  unfold returned. cbn [fst]. rewrite Er.
  split; [reflexivity|]. split; [reflexivity|].
  rewrite Ls, Pd.
  rewrite (sorted_keys_are_daily_dates (usage_log w) ok).
  rewrite !map_map.
  apply Forall2_map_self. intros [d v] Hd. cbn [fst snd].
  destruct (daily_total_of_date (usage_log w) ok d v Hd) as [_ L].
  split; [reflexivity|]. split; [exact L|].
  apply Qgtb_comp, L.
Qed.

Lemma analyze_per_day_lines_are_daily_totals_witness :
  reachable example_world = true /\
  dates_valid example_world = true /\
  exact_table example_world = true /\
  usage_log example_world <> [] /\
  exists rep dt,
    returned (analyze_main example_world) = Some ([], Some rep) /\
    returned (get_daily_totals example_world) = Some dt.
Proof.
  assert (NE : usage_log example_world <> []) by (vm_compute; discriminate).
  split; [reflexivity|]. split; [reflexivity|]. split; [reflexivity|].
  split; [exact NE|].
  destruct (analyze_per_day_lines_are_daily_totals example_world
              eq_refl eq_refl eq_refl NE) as [rep [dt [A [B _]]]].
  exists rep, dt. split; [exact A | exact B].
Defined.

(** X15.  The summary of [analyze] is the summary of [get_statistics]: with
    the server reachable, calendar dates and exact hours in the table and
    at least one row, the total screen time equals [total_hours], the
    average per day with records equals [avg_daily_hours], and the alert on
    the average is raised exactly when [avg_daily_hours] exceeds
    [THRESHOLD_HOURS]. *)
Theorem analyze_summary_is_statistics (w : World) :
  reachable w = true ->
  dates_valid w = true ->
  exact_table w = true ->
  usage_log w <> [] ->
  exists rep st,
    returned (analyze_main w) = Some ([], Some rep) /\
    returned (get_statistics w) = Some st /\
    (report_total rep == total_hours st)%Q /\
    (report_mean rep == avg_daily_hours st)%Q /\
    mean_alert rep = Qgtb (avg_daily_hours st) THRESHOLD_HOURS.
Proof.
  intros H V _ NE.
  pose proof (dates_valid_forall w V) as ok.
  destruct (analyze_report _ (q_records_nonempty _ NE))
    as [rep [Er [Pd [_ [Dt [Rt [Rm [_ [Ma _]]]]]]]]].
  destruct (statistics_totals w H) as [st [Es [T _]]].
  exists rep, st.
  rewrite analyze_main_run by exact H.
  unfold returned at 1. cbn [fst]. rewrite Er.
  split; [reflexivity|]. split; [exact Es|].
  assert (Tot : (report_total rep == sum_hours (usage_log w))%Q).
  { rewrite Rt, Dt, Pd, py_sum_Qsum. apply per_day_sum. }
  assert (Avg : (report_mean rep == avg_daily_hours st)%Q).
  { rewrite get_statistics_run in Es by exact H.
    unfold returned in Es. cbn [fst] in Es. injection Es as <-.
    cbn [avg_daily_hours]. unfold q_avg_daily. rewrite or_0_sql_AVG.
    rewrite Rm. unfold np_mean. rewrite <- Rt, Tot, Dt, Pd.
    rewrite length_map, (per_day_length (usage_log w) ok).
    pose proof (sum_per_group_total Date.eqb entry_date (usage_log w)) as S.
    assert (L : List.length
                  (map snd
                     (sum_per_group
                        (group_by Date.eqb entry_date (usage_log w)))) =
                List.length (q_daily_totals (usage_log w))).
    { unfold q_daily_totals, totals.
      rewrite length_map, (Permutation_length (order_by_perm _ _)).
      reflexivity. }
    destruct (map snd
                (sum_per_group
                   (group_by Date.eqb entry_date (usage_log w))))
      as [|x l] eqn:El.
    - cbn [List.length] in L. rewrite <- L. cbn [mean Qsum] in *.
      rewrite <- S. cbn. reflexivity.
    - unfold mean. rewrite <- L, S. reflexivity. }
  split; [rewrite Tot, T; reflexivity|]. split; [exact Avg|].
  rewrite Ma. apply Qgtb_comp, Avg.
Qed.

Lemma analyze_summary_is_statistics_witness :
  reachable example_world = true /\
  dates_valid example_world = true /\
  exact_table example_world = true /\
  usage_log example_world <> [] /\
  exists rep st,
    returned (analyze_main example_world) = Some ([], Some rep) /\
    returned (get_statistics example_world) = Some st /\
    (report_total rep == total_hours st)%Q.
Proof.
  assert (NE : usage_log example_world <> []) by (vm_compute; discriminate).
  split; [reflexivity|]. split; [reflexivity|]. split; [reflexivity|].
  split; [exact NE|].
  destruct (analyze_summary_is_statistics example_world eq_refl eq_refl
              eq_refl NE)
    as [rep [st [A [B [C _]]]]].
  exists rep, st. split; [exact A|]. split; [exact B | exact C].
Defined.

(** X16.  The per-category totals of [analyze] against those of
    [get_category_totals]: with the server reachable, exact hours and
    plain categories in the table and at least one row, [analyze] files
    under each category, as it is written and once, the hours of the
    entries of that category, while [get_category_totals] lists under a
    category the hours of all entries whose category differs from it in
    case alone at most.  Where no two stored categories differ in case
    alone the two list the same categories with equal totals; only the
    order differs (first appearance against descending total). *)
Theorem analyze_per_category_is_category_totals (w : World) :
  reachable w = true ->
  exact_table w = true ->
  labels_plain w = true ->
  usage_log w <> [] ->
  exists rep ct,
    returned (analyze_main w) = Some ([], Some rep) /\
    returned (get_category_totals w) = Some ct /\
    NoDup (map fst (per_category rep)) /\
    (forall c, In c (map fst (per_category rep)) <->
               exists r, In r (usage_log w) /\ category r = c) /\
    (forall c, lookup_total String.eqb c (per_category rep) ==
               sum_hours (of_category c (usage_log w)))%Q /\
    (forall c v, In (c, v) ct -> v = sum_hours (of_class c (usage_log w))) /\
    (case_consistent (usage_log w) ->
       (forall c, In c (map fst (per_category rep)) <-> In c (map fst ct)) /\
       (forall c v, In (c, v) ct ->
          (lookup_total String.eqb c (per_category rep) == v)%Q)).
Proof.
  intros H _ _ NE.
  destruct (analyze_report _ (q_records_nonempty _ NE))
    as [rep [Er [_ [Pc _]]]].
  exists rep, (q_category_totals (usage_log w)).
  rewrite analyze_main_run, get_category_totals_run by exact H.
  unfold returned. cbn [fst]. rewrite Er.
  split; [reflexivity|]. split; [reflexivity|]. rewrite Pc.
  split; [apply accumulate_NoDup; constructor|].
  split; [intros c; apply per_category_keys|].
  split; [intros c; apply per_category_lookup|].
  split; [apply q_category_totals_value|].
  intros CC. split.
  - intros c. rewrite per_category_keys. split.
    + intros [r [Hr E]].
      destruct (q_category_totals_covers (usage_log w) r Hr) as [c' [L K]].
      destruct (q_category_totals_listed (usage_log w) c' L)
        as [r' [Hr' E']].
      assert (EQ : c' = c).
      { rewrite <- E, <- E'. apply CC; [exact Hr' | exact Hr |].
        rewrite E'. exact K. }
      rewrite <- EQ. exact L.
    + apply q_category_totals_listed.
  - intros c v Hin. rewrite per_category_lookup.
    rewrite (q_category_totals_value _ c v Hin).
    rewrite of_class_of_category; [reflexivity | exact CC |].
    apply q_category_totals_listed.
    change c with (fst (c, v)). apply in_map, Hin.
Qed.

Lemma analyze_per_category_is_category_totals_witness :
  reachable example_world = true /\
  exact_table example_world = true /\
  labels_plain example_world = true /\
  usage_log example_world <> [] /\
  exists rep ct,
    returned (analyze_main example_world) = Some ([], Some rep) /\
    returned (get_category_totals example_world) = Some ct /\
    NoDup (map fst (per_category rep)).
Proof.
  assert (NE : usage_log example_world <> []) by (vm_compute; discriminate).
  split; [reflexivity|]. split; [reflexivity|]. split; [reflexivity|].
  split; [exact NE|].
  destruct (analyze_per_category_is_category_totals example_world eq_refl
              eq_refl eq_refl NE)
    as [rep [ct [A [B [C _]]]]].
  exists rep, ct. split; [exact A|]. split; [exact B | exact C].
Defined.

(** X17.  With the server reachable, calendar dates and exact hours in the
    table and at least one row, the days [analyze] lists as exceeding the
    threshold are the days whose total in [get_daily_totals] is strictly
    above [THRESHOLD_HOURS] (a day of exactly 6 hours is not listed), and
    there are as many of them as there are such totals. *)
Theorem analyze_heavy_days_are_days_above_threshold (w : World) :
  reachable w = true ->
  dates_valid w = true ->
  exact_table w = true ->
  usage_log w <> [] ->
  exists rep dt,
    returned (analyze_main w) = Some ([], Some rep) /\
    returned (get_daily_totals w) = Some dt /\
    (forall k,
       In k (map fst (heavy_days rep)) <->
       exists d v, In (d, v) dt /\ k = isoformat d /\
                   (THRESHOLD_HOURS < v)%Q) /\
    List.length (heavy_days rep) =
    List.length (filter (fun dv => Qgtb (snd dv) THRESHOLD_HOURS) dt).
Proof.
  intros H V _ NE.
  pose proof (dates_valid_forall w V) as ok.
  destruct (analyze_report _ (q_records_nonempty _ NE))
    as [rep [Er [Pd [_ [_ [_ [_ [_ [_ Hd]]]]]]]]].
  exists rep, (q_daily_totals (usage_log w)).
  rewrite analyze_main_run, get_daily_totals_run by exact H.
  unfold returned. cbn [fst]. rewrite Er.
  split; [reflexivity|]. split; [reflexivity|].
  rewrite Hd, Pd. split.
  - intros k. apply (heavy_keys_iff (usage_log w) ok).
  - rewrite <- (length_map fst (heavy_days rep)), Hd, Pd, length_map.
    apply (heavy_count (usage_log w) ok).
Qed.

Lemma analyze_heavy_days_are_days_above_threshold_witness :
  reachable example_world = true /\
  dates_valid example_world = true /\
  exact_table example_world = true /\
  usage_log example_world <> [] /\
  exists rep dt,
    returned (analyze_main example_world) = Some ([], Some rep) /\
    returned (get_daily_totals example_world) = Some dt /\
    List.length (heavy_days rep) =
    List.length (filter (fun dv => Qgtb (snd dv) THRESHOLD_HOURS) dt).
Proof.
  assert (NE : usage_log example_world <> []) by (vm_compute; discriminate).
  split; [reflexivity|]. split; [reflexivity|]. split; [reflexivity|].
  split; [exact NE|].
  destruct (analyze_heavy_days_are_days_above_threshold example_world
              eq_refl eq_refl eq_refl NE) as [rep [dt [A [B [_ C]]]]].
  exists rep, dt. split; [exact A|]. split; [exact B | exact C].
Defined.

(* ================================================================== *)
(** * Beyond the specification: the form of [app.py] *)

(** X18.  The form of [show_add_entry] asks for more than the store:
    hours of zero or less are refused with an error and nothing reaches
    the database; hours above zero go to [add_entry], and with the server
    reachable and an entry that the columns hold the row is stored and
    the success shown. *)
Theorem form_refuses_hours_not_above_zero w d c h r :
  ((h <= 0)%Q ->
   show_add_entry_submitted d c h r w =
   (Return (st_error
              "Please enter a valid number of hours (greater than 0)."),
    w)) /\
  ((0 < h)%Q ->
   reachable w = true ->
   accepts w d c h r = true ->
   show_add_entry_submitted d c h r w =
   (Return (st_success "✅ Entry added successfully!"),
    mkWorld (reachable w)
      (usage_log w ++ [mkRow (auto_increment w) d c h r])
      (auto_increment w + 1) None)).
Proof.
  split.
  - intros L. unfold show_add_entry_submitted.
    apply Qle_bool_iff in L. rewrite L. reflexivity.
  - intros L H _. unfold show_add_entry_submitted.
    replace (Qle_bool h 0) with false.
    + unfold bind. rewrite add_entry_run by exact H. reflexivity.
    + symmetry. apply not_true_is_false. intros E.
      apply Qle_bool_iff in E. exact (Qlt_not_le _ _ L E).
Qed.

Lemma form_refuses_hours_not_above_zero_witness :
  ((0 <= 0)%Q /\
   show_add_entry_submitted (nov 1) "Study" 0 "" empty_world =
   (Return (st_error
              "Please enter a valid number of hours (greater than 0)."),
    empty_world)) /\
  ((0 < 2)%Q /\
   reachable empty_world = true /\
   accepts empty_world (nov 1) "Study" 2 "" = true /\
   show_add_entry_submitted (nov 1) "Study" 2 "" empty_world =
   (Return (st_success "✅ Entry added successfully!"),
    mkWorld true [mkRow 1 (nov 1) "Study" 2 ""] 2 None)).
Proof.
  assert (L : (0 <= 0)%Q) by apply Qle_refl.
  assert (P : (0 < 2)%Q) by reflexivity.
  split.
  - split; [exact L|].
    apply (proj1 (form_refuses_hours_not_above_zero empty_world (nov 1)
                    "Study"%string 0%Q ""%string) L).
  - split; [exact P|]. split; [reflexivity|]. split; [reflexivity|].
    apply (proj2 (form_refuses_hours_not_above_zero empty_world (nov 1)
                    "Study"%string 2%Q ""%string) P eq_refl eq_refl).
Defined.
